(** * Bitcoin_Tracker: shallow embedding of [src/build/main.c]

    The firmware selects a price threshold with a push button at boot, then
    reads lines of the form ["BTC Price: $<price>, 24h Change: <change>%"]
    from UART1, and drives a 16x2 LCD, a two-channel LED on GPIOD and a
    buzzer.  Peripheral calls are recorded as a trace of [event]s; the
    peripherals themselves (whose drivers live in the missing [tracker.h]
    and its companion files) are interpreted by small models written from
    the spec.

    Numbers: C [int] values are [Z]; C [float] values are [Q] holding the
    exact value of the binary32 number (see [round_f32]). *)

From Stdlib Require Import ZArith QArith List String Ascii Bool Lia.
Import ListNotations.
Open Scope string_scope.
Open Scope Z_scope.

(* ------------------------------------------------------------------ *)
(** ** Characters and C strings *)

Definition NUL : ascii := Ascii.ascii_of_nat 0.
Definition LF : ascii := Ascii.ascii_of_nat 10.
Definition CR : ascii := Ascii.ascii_of_nat 13.

(** [isspace] of the C locale. *)
Definition is_space (c : ascii) : bool :=
  let n := Ascii.nat_of_ascii c in
  (n =? 32)%nat || ((9 <=? n)%nat && (n <=? 13)%nat).

Definition is_digit (c : ascii) : bool :=
  let n := Ascii.nat_of_ascii c in ((48 <=? n)%nat && (n <=? 57)%nat).

Definition digit_val (c : ascii) : Z := Z.of_nat (Ascii.nat_of_ascii c) - 48.

Definition ascii_of_digit (d : Z) : ascii := Ascii.ascii_of_nat (Z.to_nat (48 + d)).

(** The C string held in a [char] array: everything before the first NUL. *)
Fixpoint cstr (buf : list ascii) : string :=
  match buf with
  | [] => EmptyString
  | c :: rest => if Ascii.eqb c NUL then EmptyString else String c (cstr rest)
  end.

Fixpoint spaces (n : nat) : string :=
  match n with O => EmptyString | S k => String " " (spaces k) end.

Fixpoint zeros (n : nat) : string :=
  match n with O => EmptyString | S k => String "0" (zeros k) end.

(* ------------------------------------------------------------------ *)
(** ** printf conversions used by the program *)

(** Decimal digits of a natural number [n >= 0]. *)
Fixpoint digs (fuel : nat) (n : Z) (acc : string) : string :=
  match fuel with
  | O => acc
  | S f =>
      let acc' := String (ascii_of_digit (Z.rem n 10)) acc in
      if n <? 10 then acc' else digs f (Z.quot n 10) acc'
  end.

Definition dec (n : Z) : string :=
  digs (S (Z.to_nat (Z.log2 (Z.max n 1)))) n EmptyString.

(** ["%d"] *)
Definition fmt_d (n : Z) : string :=
  if n <? 0 then "-" ++ dec (- n) else dec n.

(** ["%0<w>d"]: zero padding after the sign up to field width [w]. *)
Definition fmt_0d (w : nat) (n : Z) : string :=
  let sgn := if n <? 0 then "-" else "" in
  let ds := dec (Z.abs n) in
  sgn ++ zeros (w - String.length sgn - String.length ds) ++ ds.

(** ["%-<w>d"]: left-justified, padded with spaces up to width [w]. *)
Definition fmt_left_d (w : nat) (n : Z) : string :=
  let s := fmt_d n in s ++ spaces (w - String.length s).

(** Division of [n] by [d > 0] rounded to nearest, ties to even. *)
Definition div_round_even (n d : Z) : Z :=
  let q := n / d in
  let r := n mod d in
  if 2 * r <? d then q
  else if d <? 2 * r then q + 1
  else if Z.even q then q else q + 1.

(** ["%+.2f"] of the exact value [x]: forced sign, two decimals, round to
    nearest (ties to even), the sign taken from [x] itself. *)
Definition fmt_plus_2f (x : Q) : string :=
  let sgn := if Qnum x <? 0 then "-" else "+" in
  let m := div_round_even (Z.abs (Qnum x) * 100) (Zpos (Qden x)) in
  sgn ++ dec (m / 100) ++ "." ++ fmt_0d 2 (m mod 100).

(* ------------------------------------------------------------------ *)
(** ** Conversion of a decimal value to [float]

    [strtof] rounds the exact decimal value to the nearest binary32 number
    (ties to even), with gradual underflow below 2^-126.  Values beyond
    FLT_MAX (which would become infinities) are not modelled. *)

(** [2^k <= n/d] for [n, d > 0]. *)
Definition ge_pow2 (n d k : Z) : bool :=
  if 0 <=? k then d * 2 ^ k <=? n else d <=? n * 2 ^ (- k).

(** [floor (log2 (n/d))] for [n, d > 0]. *)
Definition flog2 (n d : Z) : Z :=
  let k := Z.log2 n - Z.log2 d in
  if ge_pow2 n d k then k else k - 1.

(** Rounds [n/d > 0] to a multiple of [2^e], ties to even. *)
Definition round_at (n d e : Z) : Q :=
  if e <=? 0 then
    let m := div_round_even (n * 2 ^ (- e)) d in Qmake m (Z.to_pos (2 ^ (- e)))
  else
    let m := div_round_even n (d * 2 ^ e) in inject_Z (m * 2 ^ e).

Definition round_f32 (x : Q) : Q :=
  let n := Z.abs (Qnum x) in
  let d := Zpos (Qden x) in
  if n =? 0 then 0%Q
  else
    let r := round_at n d (Z.max (flog2 n d - 23) (-149)) in
    if Qnum x <? 0 then Qopp r else r.

(** C's [(int)f] conversion: truncation toward zero. *)
Definition trunc (x : Q) : Z := Z.quot (Qnum x) (Zpos (Qden x)).

(* ------------------------------------------------------------------ *)
(** ** sscanf

    The directives the program's format uses: white space (matches any
    amount of white space), ordinary characters, [%f] and [%%].  The
    numeric syntax accepted by [%f] is the decimal one: optional sign,
    digits with an optional point, optional exponent (the hexadecimal,
    infinity and NaN spellings are not modelled). *)

Fixpoint skip_ws (s : string) : string :=
  match s with
  | String c r => if is_space c then skip_ws r else s
  | EmptyString => s
  end.

(** Leading digits: the list of their values (most significant first). *)
Fixpoint take_digits (s : string) : list Z * string :=
  match s with
  | String c r =>
      if is_digit c then let '(ds, r') := take_digits r in (digit_val c :: ds, r')
      else ([], s)
  | EmptyString => ([], s)
  end.

Definition digits_value (ds : list Z) : Z := fold_left (fun acc d => acc * 10 + d) ds 0.

Definition take_sign (s : string) : Z * string :=
  match s with
  | String "-" r => (-1, r)
  | String "+" r => (1, r)
  | _ => (1, s)
  end.

(** Optional exponent part [e<sign><digits>]; consumed only when complete. *)
Definition take_exponent (s : string) : Z * string :=
  match s with
  | String c r =>
      if Ascii.eqb c "e" || Ascii.eqb c "E" then
        let '(sg, r1) := take_sign r in
        let '(ds, r2) := take_digits r1 in
        match ds with [] => (0, s) | _ => (sg * digits_value ds, r2) end
      else (0, s)
  | EmptyString => (0, s)
  end.

Definition decimal_Q (m scale : Z) : Q :=
  if 0 <=? scale then inject_Z (m * 10 ^ scale)
  else Qmake m (Z.to_pos (10 ^ (- scale))).

(** The exact decimal value read by [%f], and the rest of the input. *)
Definition parse_float (s : string) : option (Q * string) :=
  let '(sg, r0) := take_sign s in
  let '(ds1, r1) := take_digits r0 in
  let '(ds2, r2) :=
    match r1 with
    | String "." r => take_digits r
    | _ => ([], r1)
    end in
  match (ds1 ++ ds2)%list with
  | [] => None
  | ds =>
      let '(ex, r3) := take_exponent r2 in
      Some (decimal_Q (sg * digits_value ds) (ex - Z.of_nat (List.length ds2)), r3)
  end.

Definition EOF : Z := -1.

(** [sscanf(inp, fmt, ...)] with [%f] targets of type [float *]: the return
    value and the values stored, in order. *)
Fixpoint scan (fmt inp : string) (n : Z) (outs : list Q) : Z * list Q :=
  let input_failure := (if n =? 0 then EOF else n, outs) in
  match fmt with
  | EmptyString => (n, outs)
  | String c fr =>
      if is_space c then scan fr (skip_ws inp) n outs
      else if Ascii.eqb c "%" then
        match fr with
        | String "%" fr' =>
            match skip_ws inp with
            | EmptyString => input_failure
            | String d inp' => if Ascii.eqb d "%" then scan fr' inp' n outs else (n, outs)
            end
        | String "f" fr' =>
            match skip_ws inp with
            | EmptyString => input_failure
            | inp1 =>
                match parse_float inp1 with
                | None => (n, outs)
                | Some (v, inp') => scan fr' inp' (n + 1) (outs ++ [round_f32 v])
                end
            end
        | _ => (n, outs)
        end
      else
        match inp with
        | EmptyString => input_failure
        | String d inp' => if Ascii.eqb d c then scan fr inp' n outs else (n, outs)
        end
  end.

Definition sscanf (inp fmt : string) : Z * list Q := scan fmt inp 0 [].

Definition feed_format : string := "BTC Price: $%f, 24h Change: %f%%".

(* ------------------------------------------------------------------ *)
(** ** Peripheral calls

    Every call the program makes on a peripheral is recorded, in order. *)

Inductive event :=
  | LCD_Clear
  | LCD_Set_Cursor (col row : Z)
  | LCD_Display_String (s : string)
  | RGB_LED_Flash_Yellow
  | RGB_LED_Set_Normal (change : Q)
  | GPIOD_DATA_and (mask : Z)          (** [GPIOD->DATA &= mask] *)
  | Buzzer_Toggle
  | Buzzer_Off
  | DelayMs (ms : Z).

(** Modelled from the spec: the LCD driver (display contract of section 6,
    two rows of sixteen columns, explicit clear, writes at the cursor that
    do not wrap).  A row is the text written so far on it. *)
Record lcd := mk_lcd { row0 : string; row1 : string; cur_col : Z; cur_row : Z }.

Definition lcd_blank : lcd := mk_lcd "" "" 0 0.

Definition overwrite (line : string) (col : nat) (s : string) : string :=
  let padded := line ++ spaces (col - String.length line) in
  substring 0 16
    (substring 0 col padded ++ s
       ++ substring (col + String.length s) (String.length padded) padded).

Definition lcd_apply (d : lcd) (e : event) : lcd :=
  match e with
  | LCD_Clear => lcd_blank
  | LCD_Set_Cursor c r => mk_lcd (row0 d) (row1 d) c r
  | LCD_Display_String s =>
      let col := Z.to_nat (cur_col d) in
      let c' := cur_col d + Z.of_nat (String.length s) in
      if cur_row d =? 0 then mk_lcd (overwrite (row0 d) col s) (row1 d) c' 0
      else mk_lcd (row0 d) (overwrite (row1 d) col s) c' (cur_row d)
  | _ => d
  end.

Definition lcd_after (d : lcd) (tr : list event) : lcd := fold_left lcd_apply tr d.

(** Modelled from the spec: the indicator drivers.  Red is GPIOD bit 0 (PD0),
    green is bit 1 (PD1); [RGB_LED_Set_Normal] shows green for a positive
    change, red for a negative one and nothing for exactly zero;
    [RGB_LED_Flash_Yellow] toggles red and green together. *)
Record indicators := mk_ind { gpiod : Z; buzzer_on : bool }.

Definition ind_apply (h : indicators) (e : event) : indicators :=
  match e with
  | RGB_LED_Flash_Yellow => mk_ind (Z.lxor (gpiod h) 3) (buzzer_on h)
  | RGB_LED_Set_Normal ch =>
      let base := Z.land (gpiod h) (Z.lnot 3) in
      let g := if Qle_bool ch 0 then (if Qeq_bool ch 0 then base else Z.lor base 1)
               else Z.lor base 2 in
      mk_ind g (buzzer_on h)
  | GPIOD_DATA_and m => mk_ind (Z.land (gpiod h) m) (buzzer_on h)
  | Buzzer_Toggle => mk_ind (gpiod h) (negb (buzzer_on h))
  | Buzzer_Off => mk_ind (gpiod h) false
  | _ => h
  end.

Definition ind_after (h : indicators) (tr : list event) : indicators :=
  fold_left ind_apply tr h.

Definition red_on (h : indicators) : bool := Z.testbit (gpiod h) 0.
Definition green_on (h : indicators) : bool := Z.testbit (gpiod h) 1.

(* ------------------------------------------------------------------ *)
(** ** Threshold adjustment phase (main.c lines 68-120)

    [PushButton_Pressed()] is an input: each call consumes one boolean of
    the button stream. *)

Definition thresholds : list Z :=
  [10000; 20000; 30000; 40000; 50000; 60000; 70000; 80000; 90000; 100000; 110000; 120000].

Definition total_thresholds : Z := Z.of_nat (List.length thresholds).

Definition threshold_at (i : Z) : Z := nth (Z.to_nat i) thresholds 0.

Record sel_state := mk_sel { adjustable_index : Z; elapsed : Z }.

Definition sel_init : sel_state := mk_sel 0 0.

(** One iteration of [while (elapsed < 4000) { ... }]. *)
Definition sel_body (s : sel_state) (pressed : bool) : sel_state * list event :=
  let '(s1, tr) :=
    if pressed then
      let i := (adjustable_index s + 1) mod total_thresholds in
      (mk_sel i 0,
       [LCD_Set_Cursor 0 1; LCD_Display_String ("$" ++ fmt_left_d 7 (threshold_at i));
        DelayMs 300])
    else (s, []) in
  (mk_sel (adjustable_index s1) (elapsed s1 + 100), (tr ++ [DelayMs 100])%list).

(** The loop, run on the button stream: the final state, the calls made and
    the button samples left.  When the stream runs out first, the state
    reached so far is returned (the loop is still waiting). *)
Fixpoint sel_loop (s : sel_state) (btn : list bool) : sel_state * list event * list bool :=
  if elapsed s <? 4000 then
    match btn with
    | [] => (s, [], [])
    | b :: rest =>
        let '(s1, tr1) := sel_body s b in
        let '(s2, tr2, rest2) := sel_loop s1 rest in
        (s2, (tr1 ++ tr2)%list, rest2)
    end
  else (s, [], btn).

(** [local_threshold = (float)thresholds[adjustable_index];] *)
Definition lock_threshold (s : sel_state) : Q := inject_Z (threshold_at (adjustable_index s)).

Definition sel_final (btn : list bool) : sel_state := fst (fst (sel_loop sel_init btn)).
Definition sel_rest (btn : list bool) : list bool := snd (sel_loop sel_init btn).

Fixpoint count_true (l : list bool) : Z :=
  match l with [] => 0 | b :: r => (if b then 1 else 0) + count_true r end.

(* ------------------------------------------------------------------ *)
(** ** Main loop (main.c lines 122-179) *)

Record main_state := mk_main {
  uart_buffer : list ascii;
  index : Z;               (** [uint8_t] *)
  price : Q;
  change : Q;
  alarmStopped : bool;     (** global flag declared in tracker.h *)
  local_threshold : Q      (** global, written at line 113 *)
}.

(** Undefined behaviour the program can reach. *)
Inductive fault :=
  | BufferOverrun       (** write outside [uart_buffer] *)
  | BadIntConversion    (** [(int)price] out of the range of [int] *)
  | Line2Overflow.      (** [sprintf] beyond the 17 bytes of [line2] *)

Inductive result :=
  | Ok (s : main_state) (tr : list event) (btn : list bool)
  | Blocked (tr : list event)   (** still in the alarm loop when the button stream ran out *)
  | Fault (f : fault) (tr : list event).

Inductive loop_res :=
  | Exited (tr : list event) (btn : list bool)
  | Looping (tr : list event).

(** [uart_buffer[i] = c]: [None] when [i] is outside the array. *)
Definition buf_write (buf : list ascii) (i : Z) (c : ascii) : option (list ascii) :=
  if (0 <=? i) && (i <? Z.of_nat (List.length buf)) then
    Some (firstn (Z.to_nat i) buf ++ c :: skipn (S (Z.to_nat i)) buf)%list
  else None.

(** [sprintf(priceStr, "$%d,%03d", thousands, remainder)] *)
Definition price_str (thousands remainder : Z) : string :=
  "$" ++ fmt_d thousands ++ "," ++ fmt_0d 3 remainder.

(** [sprintf(line2, "$%d,%03d  %+.2f%%", thousands, remainder, change)] *)
Definition line2_str (thousands remainder : Z) (ch : Q) : string :=
  price_str thousands remainder ++ "  " ++ fmt_plus_2f ch ++ "%".

Definition alarm_body (thousands remainder : Z) : list event :=
  [LCD_Clear; LCD_Set_Cursor 0 0; LCD_Display_String (price_str thousands remainder);
   LCD_Set_Cursor 0 1; LCD_Display_String "BUY NOW";
   RGB_LED_Flash_Yellow; Buzzer_Toggle; DelayMs 150].

(** [while (price < local_threshold && !PushButton_Pressed()) { ... }] *)
Fixpoint alarm_loop (p thr : Q) (thousands remainder : Z) (btn : list bool) : loop_res :=
  if negb (Qle_bool thr p) then
    match btn with
    | [] => Looping []
    | true :: rest => Exited [] rest
    | false :: rest =>
        match alarm_loop p thr thousands remainder rest with
        | Exited tr r => Exited (alarm_body thousands remainder ++ tr)%list r
        | Looping tr => Looping (alarm_body thousands remainder ++ tr)%list
        end
    end
  else Exited [] btn.

Definition normal_render (l2 : string) (ch : Q) : list event :=
  [LCD_Clear; LCD_Set_Cursor 0 0; LCD_Display_String "BTC Price:";
   LCD_Set_Cursor 0 1; LCD_Display_String l2; RGB_LED_Set_Normal ch; Buzzer_Off].

Definition loading_render : list event :=
  [LCD_Clear; LCD_Set_Cursor 0 0; LCD_Display_String "Loading...";
   GPIOD_DATA_and (Z.lnot 3); Buzzer_Off].

(** [(int)price] is undefined unless the truncated value is an [int]. *)
Definition int_fits (z : Z) : bool := (- 2 ^ 31 <=? z) && (z <? 2 ^ 31).

(** [line2] is [char[17]]: [sprintf] overflows it beyond 16 characters. *)
Definition fits_line2 (l2 : string) : bool := (String.length l2 <=? 16)%nat.

Section MainLoop.

(** [BUFFER_SIZE] is defined in the missing tracker.h. *)
Variable BUFFER_SIZE : Z.

(** Handling of a complete line once [uart_buffer] holds it (lines 127-175),
    with the buffer already NUL-terminated. *)
Definition process_line (s : main_state) (buf : list ascii) (btn : list bool) : result :=
  let '(n, outs) := sscanf (cstr buf) feed_format in
  let p := match outs with v :: _ => v | [] => price s end in
  let ch := match outs with _ :: v :: _ => v | _ => change s end in
  let thr := local_threshold s in
  let s1 := mk_main buf 0 p ch (alarmStopped s) thr in
  if n =? 2 then
    let intPrice := trunc p in
    let thousands := Z.quot intPrice 1000 in
    let remainder := Z.rem intPrice 1000 in
    let l2 := line2_str thousands remainder ch in
    if negb (int_fits intPrice) then Fault BadIntConversion [] else
    if negb (fits_line2 l2) then Fault Line2Overflow [] else
    let alarm :=
      if negb (Qle_bool thr p) then
        match alarm_loop p thr thousands remainder btn with
        | Exited tr rest => Exited (tr ++ [Buzzer_Off])%list rest
        | Looping tr => Looping tr
        end
      else Exited [] btn in
    match alarm with
    | Looping tr => Blocked tr
    | Exited tr rest =>
        let st1 := if negb (Qle_bool thr p) then true else alarmStopped s in
        let st2 := if Qle_bool thr p then false else st1 in
        Ok (mk_main buf 0 p ch st2 thr) (tr ++ normal_render l2 ch)%list rest
    end
  else Ok s1 loading_render btn.

(** One iteration of [while (1)] on the received character [c]. *)
Definition main_step (s : main_state) (c : ascii) (btn : list bool) : result :=
  if Ascii.eqb c LF || Ascii.eqb c CR || (BUFFER_SIZE - 1 <=? index s) then
    match buf_write (uart_buffer s) (index s) NUL with
    | None => Fault BufferOverrun []
    | Some buf => process_line s buf btn
    end
  else
    match buf_write (uart_buffer s) (index s) c with
    | None => Fault BufferOverrun []
    | Some buf =>
        Ok (mk_main buf ((index s + 1) mod 256) (price s) (change s)
                    (alarmStopped s) (local_threshold s)) [] btn
    end.

(** The main loop on a sequence of received characters. *)
Fixpoint run_main (s : main_state) (cs : list ascii) (btn : list bool) : result :=
  match cs with
  | [] => Ok s [] btn
  | c :: rest =>
      match main_step s c btn with
      | Ok s1 tr1 btn1 =>
          match run_main s1 rest btn1 with
          | Ok s2 tr2 btn2 => Ok s2 (tr1 ++ tr2)%list btn2
          | Blocked tr2 => Blocked (tr1 ++ tr2)%list
          | Fault f tr2 => Fault f (tr1 ++ tr2)%list
          end
      | r => r
      end
  end.

End MainLoop.

(** State of the program when the main loop starts: [index = 0],
    [price = change = 0.0f], [alarmStopped] a zero-initialised global, and
    the buffer's contents whatever the stack held. *)
Definition main_init (buf : list ascii) (btn : list bool) : main_state :=
  mk_main buf 0 0 0 false (lock_threshold (sel_final btn)).

Definition string_to_list (s : string) : list ascii := list_ascii_of_string s.

(* ================================================================== *)
(** * Properties *)

(** ** Threshold adjustment phase *)

Lemma sel_body_index (s : sel_state) (b : bool) :
  adjustable_index (fst (sel_body s b)) =
  if b then (adjustable_index s + 1) mod total_thresholds else adjustable_index s.
Proof. destruct b; reflexivity. Qed.

Lemma sel_loop_index (btn : list bool) :
  forall s, 0 <= adjustable_index s < total_thresholds ->
  exists pre, btn = (pre ++ snd (sel_loop s btn))%list /\
    adjustable_index (fst (fst (sel_loop s btn))) =
    (adjustable_index s + count_true pre) mod total_thresholds.
Proof.
  induction btn as [|b rest IH]; intros s Hs; simpl.
  - destruct (elapsed s <? 4000).
    + exists []. simpl. split; [reflexivity|]. rewrite Z.add_0_r, Z.mod_small; lia.
    + exists []. simpl. split; [reflexivity|]. rewrite Z.add_0_r, Z.mod_small; lia.
  - destruct (elapsed s <? 4000).
    + destruct (sel_body s b) as [s1 tr1] eqn:Hb.
      assert (Hi : adjustable_index s1 =
                   if b then (adjustable_index s + 1) mod total_thresholds
                   else adjustable_index s)
        by (rewrite <- sel_body_index, Hb; reflexivity).
      assert (Hs1 : 0 <= adjustable_index s1 < total_thresholds).
      { rewrite Hi. destruct b; [apply Z.mod_pos_bound; unfold total_thresholds; simpl; lia | exact Hs]. }
      destruct (IH s1 Hs1) as [pre [Hpre Hidx]].
      destruct (sel_loop s1 rest) as [[s2 tr2] rest2] eqn:Hl. simpl in *.
      exists (b :: pre). split; [simpl; rewrite <- Hpre; reflexivity|].
      rewrite Hidx, Hi. simpl.
      destruct b.
      * rewrite Zplus_mod_idemp_l. f_equal; lia.
      * f_equal; lia.
    + exists []. simpl. split; [reflexivity|]. rewrite Z.add_0_r, Z.mod_small; lia.
Qed.

(** Claim C2: during threshold selection, the index selected after the
    presses observed within the window is the number N of those presses
    modulo the menu length (starting from index 0); and a press resets the
    elapsed time to 0: the iteration that sees a press leaves the same state
    as the first tick of a fresh window (elapsed 0) at the new index, so the
    full 4000 ms window starts again. *)
Theorem threshold_cycling :
  (forall btn, exists pre,
      btn = (pre ++ sel_rest btn)%list /\
      adjustable_index (sel_final btn) = count_true pre mod total_thresholds) /\
  (forall i e,
      fst (sel_body (mk_sel i e) true) =
      fst (sel_body (mk_sel ((i + 1) mod total_thresholds) 0) false)).
Proof.
  split.
  - intros btn. destruct (sel_loop_index btn sel_init) as [pre [H1 H2]].
    + simpl. unfold total_thresholds; simpl; lia.
    + exists pre. split; [exact H1|]. unfold sel_final. rewrite H2. reflexivity.
  - intros i e. reflexivity.
Qed.

Lemma sel_loop_done (s : sel_state) (btn : list bool) :
  4000 <= elapsed s -> sel_loop s btn = (s, [], btn).
Proof.
  intros H. destruct btn; simpl; replace (elapsed s <? 4000) with false by lia; reflexivity.
Qed.

Lemma sel_loop_quiet (k : nat) :
  forall s rest, 0 <= elapsed s -> elapsed s + 100 * Z.of_nat k = 4000 ->
  sel_loop s (repeat false k ++ rest)%list =
  (mk_sel (adjustable_index s) 4000, List.concat (repeat [DelayMs 100] k), rest).
Proof.
  induction k as [|k IH]; intros s rest H0 Hk; simpl.
  - rewrite sel_loop_done by lia. destruct s as [a e]; simpl in *. replace e with 4000 by lia. reflexivity.
  - replace (elapsed s <? 4000) with true by lia.
    rewrite (IH (mk_sel (adjustable_index s) (elapsed s + 100))) by (cbn [elapsed]; lia).
    reflexivity.
Qed.

Lemma sel_loop_quiet_window (rest : list bool) :
  sel_loop sel_init (repeat false 40 ++ rest)%list =
  (mk_sel 0 4000, List.concat (repeat [DelayMs 100] 40), rest).
Proof. apply (sel_loop_quiet 40 sel_init); simpl; lia. Qed.

Lemma firstn_all_false (btn : list bool) :
  (40 <= List.length btn)%nat -> (forall b, In b (firstn 40 btn) -> b = false) ->
  btn = (repeat false 40 ++ skipn 40 btn)%list.
Proof.
  intros Hlen Hf.
  rewrite <- (firstn_skipn 40 btn) at 1. f_equal.
  assert (Hl : List.length (firstn 40 btn) = 40%nat) by (rewrite List.length_firstn; lia).
  revert Hl Hf. generalize (firstn 40 btn). generalize 40%nat.
  induction n as [|n IH]; intros l Hl Hf; destruct l as [|x l]; simpl in *; try discriminate.
  - reflexivity.
  - rewrite (Hf x (or_introl eq_refl)). f_equal. apply IH; [lia|]. intros b Hb. apply Hf. now right.
Qed.

(** Claim C3: if no button press occurs during the whole selection window
    (the first 40 polls of 100 ms), the window closes after 4000 ms at index
    0 and the locked threshold is the first menu entry, 10000. *)
Theorem lock_default_threshold (btn : list bool) :
  (40 <= List.length btn)%nat ->
  (forall b, In b (firstn 40 btn) -> b = false) ->
  elapsed (sel_final btn) = 4000 /\ sel_rest btn = skipn 40 btn /\
  lock_threshold (sel_final btn) = inject_Z (nth 0 thresholds 0) /\
  lock_threshold (sel_final btn) = inject_Z 10000.
Proof.
  intros Hlen Hf.
  unfold sel_final, sel_rest.
  pose proof (firstn_all_false btn Hlen Hf) as E.
  remember (skipn 40 btn) as r eqn:Hr.
  rewrite E, sel_loop_quiet_window. repeat split; reflexivity.
Qed.

Lemma lock_default_threshold_witness :
  ((40 <= List.length (repeat false 45))%nat /\
   (forall b, In b (firstn 40 (repeat false 45)) -> b = false)) /\
  lock_threshold (sel_final (repeat false 45)) = inject_Z 10000.
Proof.
  assert (H1 : (40 <= List.length (repeat false 45))%nat) by (simpl; lia).
  assert (H2 : forall b, In b (firstn 40 (repeat false 45)) -> b = false).
  { intros b Hb. change (In b (repeat false 40)) in Hb. exact (repeat_spec 40 false b Hb). }
  split; [split; [exact H1 | exact H2]|].
  apply (lock_default_threshold (repeat false 45) H1 H2).
Defined.

(** ** Main loop: general facts *)

Definition prepend (tr1 : list event) (r : result) : result :=
  match r with
  | Ok s tr b => Ok s (tr1 ++ tr)%list b
  | Blocked tr => Blocked (tr1 ++ tr)%list
  | Fault f tr => Fault f (tr1 ++ tr)%list
  end.

Lemma prepend_nil (r : result) : prepend [] r = r.
Proof. destruct r; reflexivity. Qed.

Lemma prepend_app (tr1 tr2 : list event) (r : result) :
  prepend tr1 (prepend tr2 r) = prepend (tr1 ++ tr2)%list r.
Proof. destruct r; simpl; rewrite app_assoc; reflexivity. Qed.

Lemma run_main_cons (BS : Z) (s : main_state) (c : ascii) (cs : list ascii) (btn : list bool) :
  run_main BS s (c :: cs) btn =
  match main_step BS s c btn with
  | Ok s1 tr1 b1 => prepend tr1 (run_main BS s1 cs b1)
  | r => r
  end.
Proof.
  simpl. destruct (main_step BS s c btn) as [s1 tr1 b1| |]; reflexivity.
Qed.

Lemma run_main_app (BS : Z) (cs1 : list ascii) :
  forall s cs2 btn,
  run_main BS s (cs1 ++ cs2) btn =
  match run_main BS s cs1 btn with
  | Ok s1 tr1 b1 => prepend tr1 (run_main BS s1 cs2 b1)
  | r => r
  end.
Proof.
  induction cs1 as [|c cs1 IH]; intros s cs2 btn.
  - simpl. rewrite prepend_nil. reflexivity.
  - rewrite <- app_comm_cons, !run_main_cons.
    destruct (main_step BS s c btn) as [s1 tr1 b1| |]; try reflexivity.
    rewrite IH. destruct (run_main BS s1 cs1 b1) as [s2 tr2 b2| |]; simpl; try reflexivity.
    apply prepend_app.
Qed.

(** The alarm loop, for a price below the threshold, on a button stream
    whose first press comes after [k] unpressed polls. *)
Lemma alarm_loop_ack (p thr : Q) (th rm : Z) (k : nat) (rest : list bool) :
  Qle_bool thr p = false ->
  alarm_loop p thr th rm (repeat false k ++ true :: rest)%list =
  Exited (List.concat (repeat (alarm_body th rm) k)) rest.
Proof.
  intros H. induction k as [|k IH]; simpl; rewrite H; simpl.
  - reflexivity.
  - rewrite IH. reflexivity.
Qed.

Lemma alarm_loop_no_ack (p thr : Q) (th rm : Z) (k : nat) :
  Qle_bool thr p = false ->
  alarm_loop p thr th rm (repeat false k) = Looping (List.concat (repeat (alarm_body th rm) k)).
Proof.
  intros H. induction k as [|k IH]; simpl; rewrite H; simpl.
  - reflexivity.
  - rewrite IH. reflexivity.
Qed.

Lemma button_stream_cases (btn : list bool) :
  (exists k rest, btn = (repeat false k ++ true :: rest)%list) \/
  btn = repeat false (List.length btn).
Proof.
  induction btn as [|b btn IH].
  - right. reflexivity.
  - destruct b.
    + left. exists O, btn. reflexivity.
    + destruct IH as [[k [rest E]] | E].
      * left. exists (S k), rest. rewrite E. reflexivity.
      * right. simpl. rewrite <- E. reflexivity.
Qed.

(** Writing [c] at [i] into a buffer whose [i] first cells were already
    overwritten with the characters [pre]. *)
Lemma written_snoc (buf : list ascii) (i : nat) (c : ascii) (cs : list ascii) :
  (i < List.length buf)%nat ->
  (firstn (S i) (firstn i buf ++ c :: skipn (S i) buf) ++ cs
     ++ skipn (S i + List.length cs) (firstn i buf ++ c :: skipn (S i) buf))%list =
  (firstn i buf ++ c :: cs ++ skipn (i + S (List.length cs)) buf)%list.
Proof.
  intros Hi.
  assert (Hl : List.length (firstn i buf) = i) by (rewrite length_firstn; lia).
  rewrite firstn_app, skipn_app, Hl.
  rewrite (firstn_all2 (n := S i) (firstn i buf)) by lia.
  rewrite (skipn_all2 (n := S i + List.length cs) (firstn i buf)) by lia.
  replace (S i - i)%nat with 1%nat by lia.
  replace (S i + List.length cs - i)%nat with (S (List.length cs)) by lia.
  change (firstn 1 (c :: skipn (S i) buf)) with [c].
  change (skipn (S (List.length cs)) (c :: skipn (S i) buf))
    with (skipn (List.length cs) (skipn (S i) buf)).
  rewrite skipn_skipn, <- app_assoc.
  replace (List.length cs + S i)%nat with (i + S (List.length cs))%nat by lia.
  reflexivity.
Qed.

Definition is_terminator (c : ascii) : bool := Ascii.eqb c LF || Ascii.eqb c CR.

Section Framing.

Variable BUFFER_SIZE : Z.
Hypothesis buffer_size_byte : BUFFER_SIZE <= 256.

(** Feeding non-terminator characters that fit before the last cell of the
    buffer appends them, without any peripheral call. *)
Lemma feed_chars (cs : list ascii) :
  forall s btn,
  List.length (uart_buffer s) = Z.to_nat BUFFER_SIZE ->
  0 <= index s -> index s + Z.of_nat (List.length cs) <= BUFFER_SIZE - 1 ->
  forallb (fun c => negb (is_terminator c)) cs = true ->
  run_main BUFFER_SIZE s cs btn =
  Ok (mk_main
        (firstn (Z.to_nat (index s)) (uart_buffer s) ++ cs
           ++ skipn (Z.to_nat (index s) + List.length cs) (uart_buffer s))%list
        (index s + Z.of_nat (List.length cs)) (price s) (change s)
        (alarmStopped s) (local_threshold s)) [] btn.
Proof.
  induction cs as [|c cs IH]; intros s btn Hlen H0 Hfit Hnt.
  - simpl. rewrite Nat.add_0_r, firstn_skipn, Z.add_0_r. destruct s; reflexivity.
  - simpl in Hnt. apply andb_prop in Hnt as [Hc Hnt].
    simpl List.length in Hfit. rewrite Nat2Z.inj_succ in Hfit.
    rewrite run_main_cons. unfold main_step.
    apply negb_true_iff in Hc. unfold is_terminator in Hc. rewrite Hc.
    replace (BUFFER_SIZE - 1 <=? index s) with false by lia. simpl orb.
    unfold buf_write.
    replace ((0 <=? index s) && (index s <? Z.of_nat (List.length (uart_buffer s))))
      with true by (symmetry; apply andb_true_iff; split; lia).
    cbv iota beta.
    replace ((index s + 1) mod 256) with (index s + 1)
      by (symmetry; apply Z.mod_small; lia).
    rewrite IH; cbn [uart_buffer index price change alarmStopped local_threshold].
    + simpl. f_equal. f_equal.
      * replace (Z.to_nat (index s + 1)) with (S (Z.to_nat (index s))) by lia.
        apply written_snoc. lia.
      * lia.
    + rewrite length_app, length_firstn. cbn [Datatypes.length].
      rewrite length_skipn. lia.
    + lia.
    + lia.
    + exact Hnt.
Qed.

End Framing.

(** The values computed at lines 131-135 from a parsed price. *)
Definition thousands_of (p : Q) : Z := Z.quot (trunc p) 1000.
Definition remainder_of (p : Q) : Z := Z.rem (trunc p) 1000.
Definition line2_of (p ch : Q) : string := line2_str (thousands_of p) (remainder_of p) ch.

(** A line that parses, whose values are formatted without undefined
    behaviour: below the threshold the alarm loop runs first. *)
Lemma process_line_parsed (BS : Z) (s : main_state) (buf : list ascii) (btn : list bool) (p ch : Q) :
  sscanf (cstr buf) feed_format = (2, [p; ch]) ->
  int_fits (trunc p) = true -> fits_line2 (line2_of p ch) = true ->
  process_line s buf btn =
  if Qle_bool (local_threshold s) p then
    Ok (mk_main buf 0 p ch false (local_threshold s)) (normal_render (line2_of p ch) ch) btn
  else
    match alarm_loop p (local_threshold s) (thousands_of p) (remainder_of p) btn with
    | Exited tr rest =>
        Ok (mk_main buf 0 p ch true (local_threshold s))
           (tr ++ Buzzer_Off :: normal_render (line2_of p ch) ch)%list rest
    | Looping tr => Blocked tr
    end.
Proof.
  intros Hsc Hint Hfit. unfold process_line. rewrite Hsc. simpl Z.eqb. cbv iota beta.
  unfold line2_of, thousands_of, remainder_of in *. rewrite Hint, Hfit. simpl negb.
  cbv iota beta.
  destruct (Qle_bool (local_threshold s) p); simpl.
  - reflexivity.
  - destruct (alarm_loop _ _ _ _ btn); [|reflexivity].
    rewrite <- app_assoc. reflexivity.
Qed.

Lemma main_step_terminated (BS : Z) (s : main_state) (c : ascii) (btn : list bool) (buf : list ascii) :
  is_terminator c = true \/ BS - 1 <= index s ->
  buf_write (uart_buffer s) (index s) NUL = Some buf ->
  main_step BS s c btn = process_line s buf btn.
Proof.
  intros Hc Hw. unfold main_step. rewrite Hw.
  destruct Hc as [Hc | Hc].
  - unfold is_terminator in Hc. rewrite Hc. reflexivity.
  - replace (BS - 1 <=? index s) with true by lia. rewrite orb_true_r. reflexivity.
Qed.

Lemma lcd_after_app (d : lcd) (tr1 tr2 : list event) :
  lcd_after d (tr1 ++ tr2)%list = lcd_after (lcd_after d tr1) tr2.
Proof. apply fold_left_app. Qed.

Lemma ind_after_app (h : indicators) (tr1 tr2 : list event) :
  ind_after h (tr1 ++ tr2)%list = ind_after (ind_after h tr1) tr2.
Proof. apply fold_left_app. Qed.

Lemma lcd_after_clear (d : lcd) (tr : list event) :
  lcd_after d (LCD_Clear :: tr) = lcd_after lcd_blank tr.
Proof. reflexivity. Qed.

(** ** Parsing and rendering of the sample line *)

Definition sample_line : string := "BTC Price: $63250.50, 24h Change: -1.25%".

Lemma sscanf_sample :
  sscanf sample_line feed_format = (2, [16192128 # 256; -10485760 # 8388608]).
Proof. vm_compute. reflexivity. Qed.

Lemma sample_line_chars :
  forallb (fun c => negb (is_terminator c)) (string_to_list sample_line) = true.
Proof. reflexivity. Qed.

Lemma sample_line_length : List.length (string_to_list sample_line) = 40%nat.
Proof. reflexivity. Qed.

(** Claim C4: the line ["BTC Price: $63250.50, 24h Change: -1.25%\n"],
    received from an empty line buffer, parses to price 63250.50 and change
    -1.25, and the display then shows "BTC Price:" on row 1 and
    "$63,250  -1.25%" on row 2 (when the price is below the threshold this
    is after the alarm loop, which ends only on a press). *)
Theorem parse_sample_round_trip (BS : Z) (s : main_state) (btn : list bool) :
  41 <= BS <= 256 -> List.length (uart_buffer s) = Z.to_nat BS -> index s = 0 ->
  match run_main BS s (string_to_list sample_line ++ [LF])%list btn with
  | Ok s' tr _ =>
      price s' == 126501 # 2 /\ change s' == -125 # 100 /\ index s' = 0 /\
      forall d, row0 (lcd_after d tr) = "BTC Price:" /\ row1 (lcd_after d tr) = "$63,250  -1.25%"
  | Blocked _ => (126501 # 2 < local_threshold s)%Q /\ ~ In true btn
  | Fault _ _ => False
  end.
Proof.
  intros HBS Hlen H0.
  rewrite run_main_app.
  rewrite (feed_chars BS ltac:(lia)) by (rewrite ?sample_line_length; try exact sample_line_chars; lia).
  rewrite prepend_nil, run_main_cons.
  rewrite H0, sample_line_length.
  set (B := uart_buffer s) in *.
  set (s1 := mk_main _ _ _ _ _ _).
  assert (Hw : exists buf', buf_write (uart_buffer s1) (index s1) NUL = Some buf' /\
                            cstr buf' = sample_line).
  { unfold buf_write. subst s1. cbn [uart_buffer index].
    rewrite !length_app, length_firstn, length_skipn, sample_line_length.
    rewrite Hlen.
    match goal with |- context [if ?b then _ else _] =>
      replace b with true
        by (symmetry; apply andb_true_iff; split; [apply Z.leb_le | apply Z.ltb_lt]; lia) end.
    eexists. split; reflexivity. }
  destruct Hw as [buf' [Hw Hc]].
  rewrite (main_step_terminated BS s1 LF btn buf') by (auto; left; reflexivity).
  rewrite (process_line_parsed BS s1 buf' btn (16192128 # 256) (-10485760 # 8388608))
    by (try rewrite Hc; try apply sscanf_sample; reflexivity).
  subst s1. cbn [local_threshold].
  destruct (Qle_bool (local_threshold s) (16192128 # 256)) eqn:Hq.
  - simpl prepend. repeat split; try reflexivity.
  - destruct (button_stream_cases btn) as [[k [rest E]] | E].
    + rewrite E, alarm_loop_ack by exact Hq. simpl prepend.
      repeat split; try reflexivity;
        rewrite app_nil_r, lcd_after_app; reflexivity.
    + rewrite E, alarm_loop_no_ack by exact Hq. simpl prepend. split.
      * apply Qnot_le_lt. intros Hle.
        assert (Hle' : (local_threshold s <= 16192128 # 256)%Q)
          by (eapply Qle_trans; [exact Hle | unfold Qle; simpl; lia]).
        apply Qle_bool_iff in Hle'. rewrite Hle' in Hq. discriminate.
      * rewrite E. intros Hin. apply repeat_spec in Hin. discriminate.
Qed.

Lemma parse_sample_round_trip_witness :
  (41 <= 64 <= 256 /\
   List.length (uart_buffer (mk_main (repeat NUL 64) 0 0 0 false (10000 # 1))) = Z.to_nat 64 /\
   index (mk_main (repeat NUL 64) 0 0 0 false (10000 # 1)) = 0) /\
  match run_main 64 (mk_main (repeat NUL 64) 0 0 0 false (10000 # 1))
          (string_to_list sample_line ++ [LF])%list [] with
  | Ok s' tr _ =>
      price s' == 126501 # 2 /\ change s' == -125 # 100 /\ index s' = 0 /\
      forall d, row0 (lcd_after d tr) = "BTC Price:" /\ row1 (lcd_after d tr) = "$63,250  -1.25%"
  | Blocked _ => (126501 # 2 < 10000 # 1)%Q /\ ~ In true []
  | Fault _ _ => False
  end.
Proof.
  assert (H1 : 41 <= 64 <= 256) by lia.
  assert (H2 : List.length (uart_buffer (mk_main (repeat NUL 64) 0 0 0 false (10000 # 1))) = Z.to_nat 64)
    by reflexivity.
  assert (H3 : index (mk_main (repeat NUL 64) 0 0 0 false (10000 # 1)) = 0) by reflexivity.
  split; [auto|].
  exact (parse_sample_round_trip 64 (mk_main (repeat NUL 64) 0 0 0 false (10000 # 1)) [] H1 H2 H3).
Defined.

(** ** Shape of a line's processing *)

Lemma buf_write_length (buf : list ascii) (i : Z) (c : ascii) (buf' : list ascii) :
  buf_write buf i c = Some buf' -> List.length buf' = List.length buf.
Proof.
  unfold buf_write. destruct ((0 <=? i) && (i <? Z.of_nat (List.length buf))) eqn:H; [|discriminate].
  intros E. injection E as <-. apply andb_true_iff in H as [H1 H2].
  apply Z.leb_le in H1. apply Z.ltb_lt in H2.
  rewrite length_app, length_firstn, length_cons.
  destruct buf as [|b0 bs]; simpl in H2 |- *; [lia|].
  rewrite length_skipn. lia.
Qed.

Lemma buf_write_in_bounds (buf : list ascii) (i : Z) (c : ascii) :
  0 <= i < Z.of_nat (List.length buf) -> exists buf', buf_write buf i c = Some buf'.
Proof.
  intros H. unfold buf_write.
  replace ((0 <=? i) && (i <? Z.of_nat (List.length buf))) with true
    by (symmetry; apply andb_true_iff; split; [apply Z.leb_le | apply Z.ltb_lt]; lia).
  eexists. reflexivity.
Qed.

(** Whatever the line, its processing leaves the buffer as written, the
    cursor at 0 and the threshold unchanged, and faults only on the
    conversions of lines 131-135, never on the buffer. *)
Lemma process_line_shape (s : main_state) (buf : list ascii) (btn : list bool) :
  match process_line s buf btn with
  | Ok s' _ _ => uart_buffer s' = buf /\ index s' = 0 /\ local_threshold s' = local_threshold s
  | Blocked _ => True
  | Fault f _ => f <> BufferOverrun
  end.
Proof.
  unfold process_line.
  destruct (sscanf (cstr buf) feed_format) as [n outs].
  destruct (n =? 2).
  - destruct (negb (int_fits _)); [discriminate|].
    destruct (negb (fits_line2 _)); [discriminate|].
    destruct (negb (Qle_bool _ _)).
    + destruct (alarm_loop _ _ _ _ btn); simpl; auto.
    + simpl; auto.
  - simpl; auto.
Qed.

(** ** Malformed lines *)

(** Claim C5: a terminated line that does not match the feed pattern is
    discarded: the program continues (a normal [Ok] step) with the cursor
    back at 0, shows "Loading..." on row 1, and leaves both LED channels
    (GPIOD bits 0 and 1) and the buzzer off, whatever they were before. *)
Theorem malformed_line_idle (BS : Z) (s : main_state) (c : ascii) (btn : list bool) (buf : list ascii) :
  is_terminator c = true \/ BS - 1 <= index s ->
  buf_write (uart_buffer s) (index s) NUL = Some buf ->
  fst (sscanf (cstr buf) feed_format) <> 2 ->
  exists s', main_step BS s c btn = Ok s' loading_render btn /\
    index s' = 0 /\ uart_buffer s' = buf /\
    alarmStopped s' = alarmStopped s /\ local_threshold s' = local_threshold s /\
    forall d h,
      row0 (lcd_after d loading_render) = "Loading..." /\
      red_on (ind_after h loading_render) = false /\
      green_on (ind_after h loading_render) = false /\
      buzzer_on (ind_after h loading_render) = false.
Proof.
  intros Hc Hw Hn.
  rewrite (main_step_terminated BS s c btn buf Hc Hw).
  unfold process_line. destruct (sscanf (cstr buf) feed_format) as [n outs] eqn:Hs.
  simpl in Hn. replace (n =? 2) with false by (symmetry; apply Z.eqb_neq; exact Hn).
  eexists. split; [reflexivity|].
  cbn [index uart_buffer alarmStopped local_threshold].
  repeat split; intros; try reflexivity.
  - unfold red_on, ind_after, loading_render. cbn [fold_left ind_apply gpiod].
    rewrite Z.land_spec, Z.lnot_spec by lia. apply andb_false_r.
  - unfold green_on, ind_after, loading_render. cbn [fold_left ind_apply gpiod].
    rewrite Z.land_spec, Z.lnot_spec by lia. apply andb_false_r.
Qed.

Definition garbage_state : main_state :=
  mk_main (string_to_list "garbage" ++ repeat NUL 57)%list 7 0 0 false (10000 # 1).

Definition garbage_buf : list ascii :=
  match buf_write (uart_buffer garbage_state) (index garbage_state) NUL with
  | Some b => b
  | None => []
  end.

Lemma malformed_line_idle_witness :
  exists s', main_step 64 garbage_state LF [] = Ok s' loading_render [] /\
    index s' = 0 /\ uart_buffer s' = garbage_buf /\
    alarmStopped s' = alarmStopped garbage_state /\
    local_threshold s' = local_threshold garbage_state /\
    forall d h,
      row0 (lcd_after d loading_render) = "Loading..." /\
      red_on (ind_after h loading_render) = false /\
      green_on (ind_after h loading_render) = false /\
      buzzer_on (ind_after h loading_render) = false.
Proof.
  apply (malformed_line_idle 64 garbage_state LF [] garbage_buf).
  - left. reflexivity.
  - vm_compute. reflexivity.
  - vm_compute. discriminate.
Defined.

(** ** Line buffer bounds *)

Definition valid_buffer (BS : Z) (s : main_state) : Prop :=
  List.length (uart_buffer s) = Z.to_nat BS /\ 0 <= index s <= BS - 1.

(** Claim C6 (amended): with [1 <= BUFFER_SIZE <= 256] (the cursor is a
    [uint8_t]), every step keeps the cursor within [0 .. BUFFER_SIZE - 1]
    and never writes outside the buffer; when the cursor is at
    [BUFFER_SIZE - 1], the next byte, whatever it is, terminates the line
    (NUL at the last cell, the byte itself is not stored); and feeding
    [BUFFER_SIZE - 1] non-terminator bytes to an empty buffer makes no
    peripheral call (no parse attempt yet) and leaves the cursor at
    [BUFFER_SIZE - 1]. *)
Theorem line_buffer_bounds (BS : Z) :
  1 <= BS <= 256 ->
  (forall s c btn, valid_buffer BS s ->
     match main_step BS s c btn with
     | Ok s' _ _ => valid_buffer BS s'
     | Blocked _ => True
     | Fault f _ => f <> BufferOverrun
     end) /\
  (forall s c btn, valid_buffer BS s -> index s = BS - 1 ->
     exists buf, buf_write (uart_buffer s) (index s) NUL = Some buf /\
                 main_step BS s c btn = process_line s buf btn) /\
  (forall s cs btn, valid_buffer BS s -> index s = 0 ->
     List.length cs = Z.to_nat (BS - 1) ->
     forallb (fun c => negb (is_terminator c)) cs = true ->
     exists s', run_main BS s cs btn = Ok s' [] btn /\ index s' = BS - 1).
Proof.
  intros HBS. split; [|split].
  - intros s c btn [Hlen Hidx].
    destruct (buf_write_in_bounds (uart_buffer s) (index s) NUL) as [buf Hw]; [lia|].
    destruct (is_terminator c || (BS - 1 <=? index s)) eqn:Ht.
    + assert (Hc : is_terminator c = true \/ BS - 1 <= index s).
      { apply orb_true_iff in Ht as [Ht|Ht]; [left; exact Ht | right; apply Z.leb_le; exact Ht]. }
      rewrite (main_step_terminated BS s c btn buf Hc Hw).
      pose proof (process_line_shape s buf btn) as Hsh.
      destruct (process_line s buf btn) as [s' tr b| |]; auto.
      destruct Hsh as [Hb [Hi _]]. split.
      * rewrite Hb. rewrite (buf_write_length _ _ _ _ Hw). exact Hlen.
      * lia.
    + apply orb_false_iff in Ht as [Ht1 Ht2]. apply Z.leb_gt in Ht2.
      unfold main_step. unfold is_terminator in Ht1. rewrite Ht1.
      replace (BS - 1 <=? index s) with false by lia. simpl orb.
      destruct (buf_write_in_bounds (uart_buffer s) (index s) c) as [buf2 Hw2]; [lia|].
      rewrite Hw2. split; cbn [uart_buffer index].
      * rewrite (buf_write_length _ _ _ _ Hw2). exact Hlen.
      * rewrite Z.mod_small; lia.
  - intros s c btn [Hlen Hidx] Hi.
    destruct (buf_write_in_bounds (uart_buffer s) (index s) NUL) as [buf Hw]; [lia|].
    exists buf. split; [exact Hw|].
    apply main_step_terminated; [right; lia | exact Hw].
  - intros s cs btn [Hlen Hidx] Hi Hcs Hnt.
    rewrite (feed_chars BS ltac:(lia) cs s btn Hlen) by (auto; lia).
    eexists. split; [reflexivity|]. cbn [index]. lia.
Qed.

Lemma line_buffer_bounds_witness :
  (1 <= 64 <= 256) /\
  (forall s c btn, valid_buffer 64 s ->
     match main_step 64 s c btn with
     | Ok s' _ _ => valid_buffer 64 s'
     | Blocked _ => True
     | Fault f _ => f <> BufferOverrun
     end).
Proof.
  assert (H : 1 <= 64 <= 256) by lia.
  split; [exact H|]. exact (proj1 (line_buffer_bounds 64 H)).
Defined.

(** Claim C6, as stated, fails: with a 64-byte buffer, 63 non-terminator
    bytes fill the buffer up to the cursor 63 without any flush or parse
    attempt (no peripheral call at all); only a 64th byte would force it. *)
Lemma line_buffer_no_flush_at_capacity :
  match run_main 64 (mk_main (repeat NUL 64) 0 0 0 false (10000 # 1)) (repeat "a"%char 63) [] with
  | Ok s' tr _ => tr = [] /\ index s' = 63
  | _ => False
  end.
Proof. vm_compute. split; reflexivity. Qed.

(** ** Updates at or above the threshold *)

(** When the formatted line fits [line2], an update at or above the
    threshold clears [alarmStopped], shows "BTC Price:" and the formatted
    string, and turns the buzzer off. *)
Lemma normal_update (BS : Z) (s : main_state) (c : ascii) (btn : list bool) (buf : list ascii) (p ch : Q) :
  is_terminator c = true \/ BS - 1 <= index s ->
  buf_write (uart_buffer s) (index s) NUL = Some buf ->
  sscanf (cstr buf) feed_format = (2, [p; ch]) ->
  int_fits (trunc p) = true -> fits_line2 (line2_of p ch) = true ->
  Qle_bool (local_threshold s) p = true ->
  main_step BS s c btn =
    Ok (mk_main buf 0 p ch false (local_threshold s)) (normal_render (line2_of p ch) ch) btn.
Proof.
  intros Hc Hw Hs Hi Hf Hq.
  rewrite (main_step_terminated BS s c btn buf Hc Hw).
  rewrite (process_line_parsed BS s buf btn p ch Hs Hi Hf), Hq. reflexivity.
Qed.

Definition big_move_line : string := "BTC Price: $100000.00, 24h Change: -10.50%".

(** Claim C7 fails on a well-formed update: at price 100000 and change
    -10.50 the string ["$100,000  -10.50%"] has 17 characters, and
    [sprintf] writes it with its NUL (18 bytes) into [char line2[17]]: the
    step ends in undefined behaviour before anything is rendered. *)
Theorem big_move_overflows_line2 :
  line2_of (100000 # 1) (-1050 # 100) = "$100,000  -10.50%" /\
  run_main 64 (mk_main (repeat NUL 64) 0 0 0 false (10000 # 1))
    (string_to_list big_move_line ++ [LF])%list [] = Fault Line2Overflow [].
Proof. split; vm_compute; reflexivity. Qed.

(** ** The alarm sub-loop *)

(** Claim C8: once a parsed price below the threshold enters the alarm
    loop, every iteration is [alarm_body]: clear, the formatted price at
    row 1, "BUY NOW" at row 2, the yellow flash, a buzzer toggle and a
    150 ms delay.  The loop polls only the button (no character is read:
    the step consumes the one character [c]); with [k] unpressed polls and
    then a press it makes [k] iterations and exits, turns the buzzer off
    and sets [alarmStopped]; while no press comes it does not exit. *)
Theorem alarm_subloop (BS : Z) (s : main_state) (c : ascii) (buf : list ascii) (p ch : Q) :
  is_terminator c = true \/ BS - 1 <= index s ->
  buf_write (uart_buffer s) (index s) NUL = Some buf ->
  sscanf (cstr buf) feed_format = (2, [p; ch]) ->
  int_fits (trunc p) = true -> fits_line2 (line2_of p ch) = true ->
  Qle_bool (local_threshold s) p = false ->
  (forall k rest,
     main_step BS s c (repeat false k ++ true :: rest)%list =
     Ok (mk_main buf 0 p ch true (local_threshold s))
        (List.concat (repeat (alarm_body (thousands_of p) (remainder_of p)) k)
           ++ Buzzer_Off :: normal_render (line2_of p ch) ch)%list rest) /\
  (forall k,
     main_step BS s c (repeat false k) =
     Blocked (List.concat (repeat (alarm_body (thousands_of p) (remainder_of p)) k))).
Proof.
  intros Hc Hw Hs Hi Hf Hq. split.
  - intros k rest.
    rewrite (main_step_terminated BS s c _ buf Hc Hw).
    rewrite (process_line_parsed BS s buf _ p ch Hs Hi Hf), Hq.
    rewrite alarm_loop_ack by exact Hq. reflexivity.
  - intros k.
    rewrite (main_step_terminated BS s c _ buf Hc Hw).
    rewrite (process_line_parsed BS s buf _ p ch Hs Hi Hf), Hq.
    rewrite alarm_loop_no_ack by exact Hq. reflexivity.
Qed.

Definition dip_line : string := "BTC Price: $65000, 24h Change: 1.5%".

Definition dip_state (latched : bool) : main_state :=
  mk_main (string_to_list dip_line ++ repeat NUL 29)%list 35 0 0 latched (70000 # 1).

Definition dip_buf : list ascii :=
  match buf_write (uart_buffer (dip_state false)) 35 NUL with Some b => b | None => [] end.

Definition dip_price : Q := nth 0 (snd (sscanf (cstr dip_buf) feed_format)) 0%Q.
Definition dip_change : Q := nth 1 (snd (sscanf (cstr dip_buf) feed_format)) 0%Q.

Lemma alarm_subloop_witness :
  (forall k rest,
     main_step 64 (dip_state false) LF (repeat false k ++ true :: rest)%list =
     Ok (mk_main dip_buf 0 dip_price dip_change true (70000 # 1))
        (List.concat (repeat (alarm_body (thousands_of dip_price) (remainder_of dip_price)) k)
           ++ Buzzer_Off :: normal_render (line2_of dip_price dip_change) dip_change)%list rest) /\
  (forall k,
     main_step 64 (dip_state false) LF (repeat false k) =
     Blocked (List.concat (repeat (alarm_body (thousands_of dip_price) (remainder_of dip_price)) k))).
Proof.
  apply (alarm_subloop 64 (dip_state false) LF dip_buf dip_price dip_change).
  - left. reflexivity.
  - vm_compute. reflexivity.
  - vm_compute. reflexivity.
  - vm_compute. reflexivity.
  - vm_compute. reflexivity.
  - vm_compute. reflexivity.
Defined.

(** ** The locked threshold is a frame of the main loop *)

Lemma main_step_threshold (BS : Z) (s : main_state) (c : ascii) (btn : list bool) :
  match main_step BS s c btn with
  | Ok s' _ _ => local_threshold s' = local_threshold s
  | _ => True
  end.
Proof.
  unfold main_step.
  destruct (Ascii.eqb c LF || Ascii.eqb c CR || (BS - 1 <=? index s)).
  - destruct (buf_write (uart_buffer s) (index s) NUL) as [buf|]; [|exact I].
    pose proof (process_line_shape s buf btn) as H.
    destruct (process_line s buf btn); tauto.
  - destruct (buf_write (uart_buffer s) (index s) c); reflexivity.
Qed.

(** Claim C9: [local_threshold] is assigned once, from the selection phase
    ([main_init]), and no iteration of the main loop changes it: neither
    one step nor any sequence of steps. *)
Theorem threshold_locked (BS : Z) :
  (forall buf btn, local_threshold (main_init buf btn) = lock_threshold (sel_final btn)) /\
  (forall s c btn,
     match main_step BS s c btn with
     | Ok s' _ _ => local_threshold s' = local_threshold s
     | _ => True
     end) /\
  (forall cs s btn,
     match run_main BS s cs btn with
     | Ok s' _ _ => local_threshold s' = local_threshold s
     | _ => True
     end).
Proof.
  split; [reflexivity|]. split; [apply main_step_threshold|].
  induction cs as [|c cs IH]; intros s btn.
  - reflexivity.
  - rewrite run_main_cons. pose proof (main_step_threshold BS s c btn) as Hs.
    destruct (main_step BS s c btn) as [s1 tr1 b1| |]; try exact I.
    specialize (IH s1 b1). destruct (run_main BS s1 cs b1); simpl; try exact I.
    congruence.
Qed.

(** ** [alarmStopped] is never read *)

Definition with_alarm (s : main_state) (a : bool) : main_state :=
  mk_main (uart_buffer s) (index s) (price s) (change s) a (local_threshold s).

(** Everything the program does, but the value of [alarmStopped]. *)
Definition erase_alarm (r : result) : result :=
  match r with
  | Ok s tr b => Ok (with_alarm s false) tr b
  | r => r
  end.

Lemma erase_prepend (tr : list event) (r : result) :
  erase_alarm (prepend tr r) = prepend tr (erase_alarm r).
Proof. destruct r; reflexivity. Qed.

Lemma process_line_alarm (s : main_state) (a : bool) (buf : list ascii) (btn : list bool) :
  erase_alarm (process_line (with_alarm s a) buf btn) = erase_alarm (process_line s buf btn).
Proof.
  unfold process_line, with_alarm. cbn [price change alarmStopped local_threshold].
  destruct (sscanf (cstr buf) feed_format) as [n outs].
  destruct (n =? 2); [|reflexivity].
  destruct (negb (int_fits _)); [reflexivity|].
  destruct (negb (fits_line2 _)); [reflexivity|].
  destruct (negb (Qle_bool _ _)).
  - destruct (alarm_loop _ _ _ _ btn); reflexivity.
  - reflexivity.
Qed.

Lemma main_step_alarm (BS : Z) (s : main_state) (a : bool) (c : ascii) (btn : list bool) :
  erase_alarm (main_step BS (with_alarm s a) c btn) = erase_alarm (main_step BS s c btn).
Proof.
  unfold main_step. cbn [uart_buffer index with_alarm].
  destruct (Ascii.eqb c LF || Ascii.eqb c CR || (BS - 1 <=? index s)).
  - destruct (buf_write (uart_buffer s) (index s) NUL) as [buf|]; [|reflexivity].
    apply process_line_alarm.
  - destruct (buf_write (uart_buffer s) (index s) c); reflexivity.
Qed.

Lemma run_main_alarm (BS : Z) (cs : list ascii) :
  forall s btn,
  erase_alarm (run_main BS s cs btn) = erase_alarm (run_main BS (with_alarm s false) cs btn).
Proof.
  induction cs as [|c cs IH]; intros s btn.
  - reflexivity.
  - rewrite !run_main_cons.
    pose proof (main_step_alarm BS s false c btn) as H.
    destruct (main_step BS s c btn) as [s1 tr1 b1| f1 |f1 tr1];
      destruct (main_step BS (with_alarm s false) c btn) as [s2 tr2 b2| |];
      simpl in H; try discriminate; try exact (eq_sym H).
    change (Ok (with_alarm s2 false) tr2 b2 = Ok (with_alarm s1 false) tr1 b1) in H.
    assert (Hs : with_alarm s2 false = with_alarm s1 false) by congruence.
    assert (E1 : tr2 = tr1) by congruence. assert (E2 : b2 = b1) by congruence.
    subst tr2 b2.
    rewrite !erase_prepend, (IH s1), (IH s2), Hs. reflexivity.
Qed.

(** Claim C10: [alarmStopped] is written but never read.  Two runs of the
    main loop from states that differ only in [alarmStopped], on the same
    characters and the same button polls, make exactly the same peripheral
    calls (display, LED, buzzer, delays), consume the same polls, end in the
    same way, and reach states that differ at most in [alarmStopped]. *)
Theorem alarm_flag_never_read (BS : Z) (s : main_state) (a1 a2 : bool) (cs : list ascii) (btn : list bool) :
  erase_alarm (run_main BS (with_alarm s a1) cs btn) =
  erase_alarm (run_main BS (with_alarm s a2) cs btn).
Proof.
  rewrite (run_main_alarm BS cs (with_alarm s a1)), (run_main_alarm BS cs (with_alarm s a2)).
  reflexivity.
Qed.

(** ** The alarm latch *)

(** Claim C1 fails: a first line at 65000 (threshold 70000) enters the
    alarm loop, which the press on the first poll acknowledges, setting
    [alarmStopped]; a second line still below the threshold enters the
    alarm loop again: its first iteration shows "BUY NOW" before the press
    on the third poll ends it. *)
Theorem latched_alarm_retriggers :
  (match run_main 64 (dip_state false) [LF] [true] with
   | Ok s1 tr1 _ =>
       alarmStopped s1 = true /\ ~ In (LCD_Display_String "BUY NOW") tr1
   | _ => False
   end) /\
  (match run_main 64 (dip_state false) (LF :: string_to_list dip_line ++ [LF])%list
           [true; false; true] with
   | Ok s2 tr2 rest =>
       alarmStopped s2 = true /\ rest = [] /\
       In (LCD_Display_String "BUY NOW") tr2
   | _ => False
   end).
Proof.
  split.
  - vm_compute. split; [reflexivity|]. intros H. repeat (destruct H as [H|H]; [discriminate|]). exact H.
  - vm_compute. repeat split. auto 30.
Qed.


(** The digit values of a string, most significant first. *)
Fixpoint digit_vals (s : string) : list Z :=
  match s with EmptyString => [] | String c r => digit_val c :: digit_vals r end.

Fixpoint all_digits (s : string) : bool :=
  match s with EmptyString => true | String c r => is_digit c && all_digits r end.

Lemma sapp_assoc (a b c : string) : ((a ++ b) ++ c) = (a ++ (b ++ c)).
Proof. induction a as [|x a IH]; simpl; [reflexivity|]. rewrite IH. reflexivity. Qed.

Lemma sapp_nil_r (a : string) : (a ++ "") = a.
Proof. induction a as [|x a IH]; simpl; [reflexivity|]. rewrite IH. reflexivity. Qed.

Lemma slength_app (a b : string) : String.length (a ++ b) = (String.length a + String.length b)%nat.
Proof. induction a as [|x a IH]; simpl; [reflexivity|]. rewrite IH. reflexivity. Qed.

Lemma digit_vals_app (a b : string) : digit_vals (a ++ b) = (digit_vals a ++ digit_vals b)%list.
Proof. induction a as [|x a IH]; simpl; [reflexivity|]. rewrite IH. reflexivity. Qed.

Lemma all_digits_app (a b : string) : all_digits (a ++ b) = all_digits a && all_digits b.
Proof. induction a as [|x a IH]; simpl; [reflexivity|]. rewrite IH, andb_assoc. reflexivity. Qed.

Lemma digit_vals_length (a : string) : List.length (digit_vals a) = String.length a.
Proof. induction a as [|x a IH]; simpl; [reflexivity|]. rewrite IH. reflexivity. Qed.

Lemma digits_fold (ds : list Z) : forall acc,
  fold_left (fun a d => a * 10 + d) ds acc =
  acc * 10 ^ Z.of_nat (List.length ds) + fold_left (fun a d => a * 10 + d) ds 0.
Proof.
  induction ds as [|d ds IH]; intros acc; cbn [fold_left List.length].
  - simpl. lia.
  - rewrite (IH (acc * 10 + d)), (IH (0 * 10 + d)).
    rewrite Nat2Z.inj_succ, Z.pow_succ_r by lia. lia.
Qed.

Lemma digits_value_app (a b : list Z) :
  digits_value (a ++ b) = digits_value a * 10 ^ Z.of_nat (List.length b) + digits_value b.
Proof. unfold digits_value. rewrite fold_left_app, digits_fold. reflexivity. Qed.

Lemma digit_char (d : Z) :
  0 <= d <= 9 -> is_digit (ascii_of_digit d) = true /\ digit_val (ascii_of_digit d) = d.
Proof.
  intros H.
  assert (d = 0 \/ d = 1 \/ d = 2 \/ d = 3 \/ d = 4 \/ d = 5 \/ d = 6 \/ d = 7 \/ d = 8 \/ d = 9)
    as Hd by lia.
  repeat destruct Hd as [-> | Hd]; [..| subst]; split; reflexivity.
Qed.


Lemma digs_S (f : nat) (n : Z) (acc : string) :
  digs (S f) n acc =
  let acc' := String (ascii_of_digit (Z.rem n 10)) acc in
  if n <? 10 then acc' else digs f (Z.quot n 10) acc'.
Proof. reflexivity. Qed.

Lemma digs_spec (f : nat) : forall n acc,
  0 <= n < 10 ^ Z.of_nat (S f) ->
  exists D, digs (S f) n acc = (D ++ acc) /\ all_digits D = true /\
    digits_value (digit_vals D) = n /\ (1 <= String.length D)%nat /\
    n < 10 ^ Z.of_nat (String.length D) /\
    (String.length D = 1%nat \/ 10 ^ (Z.of_nat (String.length D) - 1) <= n).
Proof.
  induction f as [|f IH]; intros n acc Hn.
  - simpl in Hn. simpl digs. rewrite Z.rem_mod_nonneg by lia.
    replace (n <? 10) with true by lia. rewrite Z.mod_small by lia.
    destruct (digit_char n ltac:(lia)) as [H1 H2].
    exists (String (ascii_of_digit n) ""). simpl. rewrite H1, H2. repeat split; lia.
  - rewrite digs_S. cbv zeta. rewrite Z.rem_mod_nonneg by lia.
    destruct (digit_char (n mod 10) ltac:(pose proof (Z.mod_pos_bound n 10); lia)) as [H1 H2].
    destruct (n <? 10) eqn:Hlt.
    + apply Z.ltb_lt in Hlt. rewrite Z.mod_small in H1, H2 |- * by lia.
      exists (String (ascii_of_digit n) ""). simpl. rewrite H1, H2. repeat split; lia.
    + apply Z.ltb_ge in Hlt. rewrite Z.quot_div_nonneg by lia.
      assert (Hq : 0 <= n / 10 < 10 ^ Z.of_nat (S f)).
      { split; [apply Z.div_pos; lia|].
        apply Z.div_lt_upper_bound; [lia|].
        rewrite <- Z.pow_succ_r by lia. rewrite <- Nat2Z.inj_succ. lia. }
      destruct (IH (n / 10) (String (ascii_of_digit (n mod 10)) acc) Hq)
        as [D [E [Ha [Hv [Hl [Hu Hlo]]]]]].
      exists (D ++ String (ascii_of_digit (n mod 10)) "").
      rewrite E, sapp_assoc. simpl.
      rewrite all_digits_app, digit_vals_app, digits_value_app, slength_app, Ha. simpl.
      rewrite H1, H2, Hv. simpl.
      pose proof (Z.div_mod n 10 ltac:(lia)) as Hdm.
      pose proof (Z.mod_pos_bound n 10 ltac:(lia)) as Hmb.
      rewrite Nat.add_1_r, Nat2Z.inj_succ, Z.pow_succ_r by lia.
      repeat split; try lia.
      * unfold digits_value. simpl. lia.
      * right. replace (Z.succ (Z.of_nat (String.length D)) - 1) with (Z.of_nat (String.length D)) by lia.
        destruct Hlo as [Hlo | Hlo].
        -- rewrite Hlo. simpl. lia.
        -- replace (Z.of_nat (String.length D)) with (Z.succ (Z.of_nat (String.length D) - 1)) at 1 by lia.
           rewrite Z.pow_succ_r by lia. lia.
Qed.

Lemma dec_spec (n : Z) :
  0 <= n ->
  all_digits (dec n) = true /\ digits_value (digit_vals (dec n)) = n /\
  (1 <= String.length (dec n))%nat /\ n < 10 ^ Z.of_nat (String.length (dec n)) /\
  (String.length (dec n) = 1%nat \/ 10 ^ (Z.of_nat (String.length (dec n)) - 1) <= n).
Proof.
  intros Hn. unfold dec.
  set (k := Z.to_nat (Z.log2 (Z.max n 1))).
  assert (Hb : 0 <= n < 10 ^ Z.of_nat (S k)).
  { split; [lia|].
    pose proof (Z.log2_spec (Z.max n 1) ltac:(lia)) as [_ Hlt].
    pose proof (Z.log2_nonneg (Z.max n 1)).
    assert (E : Z.of_nat (S k) = Z.succ (Z.log2 (Z.max n 1))) by (unfold k; lia).
    rewrite E.
    assert (2 ^ Z.succ (Z.log2 (Z.max n 1)) <= 10 ^ Z.succ (Z.log2 (Z.max n 1)))
      by (apply Z.pow_le_mono_l; lia).
    lia. }
  destruct (digs_spec k n "" Hb) as [D [E H]]. rewrite E, sapp_nil_r. exact H.
Qed.

Lemma dec_length_le (n : Z) (k : nat) :
  0 <= n < 10 ^ Z.of_nat k -> (1 <= k)%nat -> (String.length (dec n) <= k)%nat.
Proof.
  intros Hn Hk. destruct (dec_spec n ltac:(lia)) as [_ [_ [Hl [_ [Hlo | Hlo]]]]]; [lia|].
  destruct (Nat.le_gt_cases (String.length (dec n)) k) as [|Hgt]; [assumption|].
  assert (10 ^ Z.of_nat k <= 10 ^ (Z.of_nat (String.length (dec n)) - 1))
    by (apply Z.pow_le_mono_r; lia).
  lia.
Qed.


Lemma zeros_length (k : nat) : String.length (zeros k) = k.
Proof. induction k as [|k IH]; simpl; congruence. Qed.

Lemma zeros_digits (k : nat) :
  all_digits (zeros k) = true /\ digit_vals (zeros k) = repeat 0 k.
Proof. induction k as [|k IH]; simpl; [split; reflexivity|]. destruct IH as [-> ->]. split; reflexivity. Qed.

Lemma digits_value_zeros (k : nat) (ds : list Z) :
  digits_value (repeat 0 k ++ ds)%list = digits_value ds.
Proof.
  rewrite digits_value_app. replace (digits_value (repeat 0 k)) with 0; [lia|].
  induction k as [|k IH]; [reflexivity|].
  unfold digits_value in *. simpl. exact IH.
Qed.

(** ["%0<w>d"] of a non-negative number with at most [w] digits. *)
Lemma fmt_0d_nonneg (w : nat) (n : Z) :
  0 <= n < 10 ^ Z.of_nat w -> (1 <= w)%nat ->
  String.length (fmt_0d w n) = w /\ all_digits (fmt_0d w n) = true /\
  digits_value (digit_vals (fmt_0d w n)) = n.
Proof.
  intros Hn Hw. unfold fmt_0d.
  replace (n <? 0) with false by lia. rewrite Z.abs_eq by lia. simpl.
  pose proof (dec_length_le n w Hn Hw) as Hl.
  destruct (dec_spec n ltac:(lia)) as [Ha [Hv _]].
  destruct (zeros_digits (w - 0 - String.length (dec n))) as [Hz1 Hz2].
  rewrite slength_app, zeros_length, all_digits_app, digit_vals_app, Hz1, Hz2, Ha,
    digits_value_zeros, Hv.
  repeat split; lia.
Qed.

Lemma fmt_d_nonneg (n : Z) : 0 <= n -> fmt_d n = dec n.
Proof. intros H. unfold fmt_d. replace (n <? 0) with false by lia. reflexivity. Qed.

Lemma div_round_even_le (n d K : Z) :
  0 < d -> 0 <= n -> 2 * n < (2 * K + 1) * d -> div_round_even n d <= K.
Proof.
  intros Hd Hn H. unfold div_round_even.
  pose proof (Z.div_mod n d ltac:(lia)) as Hdm.
  pose proof (Z.mod_pos_bound n d Hd) as Hmb.
  assert (Hq : n / d <= K) by nia.
  destruct (2 * (n mod d) <? d) eqn:E1; [lia|].
  apply Z.ltb_ge in E1.
  assert (n / d < K) by nia.
  destruct (d <? 2 * (n mod d)); [lia|]. destruct (Z.even (n / d)); lia.
Qed.

Lemma div_round_even_ge (n d K : Z) :
  0 < d -> Z.even K = true -> (2 * K - 1) * d <= 2 * n -> K <= div_round_even n d.
Proof.
  intros Hd HK H. unfold div_round_even.
  pose proof (Z.div_mod n d ltac:(lia)) as Hdm.
  pose proof (Z.mod_pos_bound n d Hd) as Hmb.
  assert (Hq : K - 1 <= n / d) by nia.
  destruct (Z.eq_dec (n / d) (K - 1)) as [Eq|Ne].
  - assert (d <= 2 * (n mod d)) by nia.
    replace (2 * (n mod d) <? d) with false by lia.
    destruct (d <? 2 * (n mod d)); [lia|].
    rewrite Eq. rewrite Z.even_sub, HK. simpl. lia.
  - destruct (2 * (n mod d) <? d); [lia|].
    destruct (d <? 2 * (n mod d)); [lia|]. destruct (Z.even (n / d)); lia.
Qed.

Lemma fmt_plus_2f_length (x : Q) :
  String.length (fmt_plus_2f x) =
  (1 + String.length (dec (div_round_even (Z.abs (Qnum x) * 100) (Zpos (Qden x)) / 100)) + 3)%nat.
Proof.
  unfold fmt_plus_2f.
  set (m := div_round_even (Z.abs (Qnum x) * 100) (Zpos (Qden x))).
  assert (Hm : 0 <= m).
  { unfold m. apply (div_round_even_ge _ _ 0); [lia | reflexivity | lia]. }
  destruct (fmt_0d_nonneg 2 (m mod 100)) as [Hl _];
    [pose proof (Z.mod_pos_bound m 100); simpl; lia | lia |].
  rewrite !slength_app, Hl.
  destruct (Qnum x <? 0); simpl; lia.
Qed.

Lemma line2_of_length (p ch : Q) :
  0 <= trunc p ->
  String.length (line2_of p ch) =
  (1 + String.length (dec (trunc p / 1000)) + 1 + 3 + 2 +
   (1 + String.length (dec (div_round_even (Z.abs (Qnum ch) * 100) (Zpos (Qden ch)) / 100)) + 3)
   + 1)%nat.
Proof.
  intros Hp. unfold line2_of, line2_str, price_str, thousands_of, remainder_of.
  rewrite Z.quot_div_nonneg, Z.rem_mod_nonneg by lia.
  rewrite fmt_d_nonneg by (apply Z.div_pos; lia).
  destruct (fmt_0d_nonneg 3 (trunc p mod 1000)) as [Hl _];
    [pose proof (Z.mod_pos_bound (trunc p) 1000); simpl; lia | lia |].
  rewrite !slength_app, Hl, fmt_plus_2f_length. simpl. lia.
Qed.

Lemma process_line_overflow (s : main_state) (buf : list ascii) (btn : list bool) (p ch : Q) :
  sscanf (cstr buf) feed_format = (2, [p; ch]) ->
  int_fits (trunc p) = true -> fits_line2 (line2_of p ch) = false ->
  process_line s buf btn = Fault Line2Overflow [].
Proof.
  intros Hsc Hint Hfit. unfold process_line. rewrite Hsc. simpl Z.eqb. cbv iota beta.
  unfold line2_of, thousands_of, remainder_of in *. rewrite Hint, Hfit. reflexivity.
Qed.

(** Extra X6: a non-negative integer price is shown as ["$"], the decimal
    numeral of its thousands, a comma and exactly three digits: the digits
    around the comma, read together, are the integer price. *)
Theorem price_grouping (p : Q) :
  0 <= trunc p ->
  exists A B, price_str (thousands_of p) (remainder_of p) = "$" ++ A ++ "," ++ B /\
    A = dec (trunc p / 1000) /\ String.length B = 3%nat /\
    all_digits (A ++ B) = true /\ digits_value (digit_vals (A ++ B)) = trunc p.
Proof.
  intros Hp. unfold price_str, thousands_of, remainder_of.
  rewrite Z.quot_div_nonneg, Z.rem_mod_nonneg by lia.
  rewrite fmt_d_nonneg by (apply Z.div_pos; lia).
  destruct (fmt_0d_nonneg 3 (trunc p mod 1000)) as [Hl [Ha Hv]];
    [pose proof (Z.mod_pos_bound (trunc p) 1000); simpl; lia | lia |].
  destruct (dec_spec (trunc p / 1000)) as [Ha' [Hv' _]]; [apply Z.div_pos; lia|].
  exists (dec (trunc p / 1000)), (fmt_0d 3 (trunc p mod 1000)).
  rewrite all_digits_app, digit_vals_app, digits_value_app, Ha, Ha', Hv, Hv',
    digit_vals_length, Hl.
  repeat split. pose proof (Z.div_mod (trunc p) 1000 ltac:(lia)). simpl. lia.
Qed.

Lemma price_grouping_witness :
  0 <= trunc (126501 # 2) /\
  exists A B, price_str (thousands_of (126501 # 2)) (remainder_of (126501 # 2)) = "$" ++ A ++ "," ++ B /\
    A = dec (trunc (126501 # 2) / 1000) /\ String.length B = 3%nat /\
    all_digits (A ++ B) = true /\ digits_value (digit_vals (A ++ B)) = trunc (126501 # 2).
Proof.
  assert (H : 0 <= trunc (126501 # 2)) by (vm_compute; discriminate).
  split; [exact H | exact (price_grouping (126501 # 2) H)].
Defined.

(** Extra X7: for an integer price in [0 .. 99999] and a change strictly
    between -99.995 and 99.995, the string of line 135 fits [line2] (at
    most 16 characters): a terminated line that parses to such values never
    ends in a fault. *)
Theorem line2_fits_in_range (BS : Z) (s : main_state) (c : ascii) (btn : list bool)
  (buf : list ascii) (p ch : Q) :
  is_terminator c = true \/ BS - 1 <= index s ->
  buf_write (uart_buffer s) (index s) NUL = Some buf ->
  sscanf (cstr buf) feed_format = (2, [p; ch]) ->
  0 <= trunc p < 100000 -> (- (99995 # 1000) < ch < 99995 # 1000)%Q ->
  fits_line2 (line2_of p ch) = true /\
  match main_step BS s c btn with Fault _ _ => False | _ => True end.
Proof.
  intros Hc Hw Hs Hp Hch.
  assert (Hfit : fits_line2 (line2_of p ch) = true).
  { unfold fits_line2. apply Nat.leb_le. rewrite line2_of_length by lia.
    assert (H1 : (String.length (dec (trunc p / 1000)) <= 2)%nat).
    { apply dec_length_le; [split; [apply Z.div_pos|apply Z.div_lt_upper_bound]; simpl; lia | lia]. }
    destruct ch as [num den]. cbn [Qnum Qden].
    unfold Qlt in Hch. simpl in Hch.
    set (m := div_round_even (Z.abs num * 100) (Zpos den)).
    assert (Hm0 : 0 <= m) by (apply (div_round_even_ge _ _ 0); [lia | reflexivity | lia]).
    assert (Hm : m <= 9999) by (apply div_round_even_le; lia).
    assert (H2 : (String.length (dec (m / 100)) <= 2)%nat).
    { apply dec_length_le; [split; [apply Z.div_pos|apply Z.div_lt_upper_bound]; simpl; lia | lia]. }
    lia. }
  split; [exact Hfit|].
  assert (Hint : int_fits (trunc p) = true) by (unfold int_fits; apply andb_true_iff; lia).
  rewrite (main_step_terminated BS s c btn buf Hc Hw).
  rewrite (process_line_parsed BS s buf btn p ch Hs Hint Hfit).
  destruct (Qle_bool (local_threshold s) p); [exact I|].
  destruct (alarm_loop _ _ _ _ btn); exact I.
Qed.

















Lemma cstr_app_nul (l r : list ascii) : cstr (l ++ NUL :: r)%list = cstr l.
Proof.
  induction l as [|x l IH]; simpl; [reflexivity|].
  destruct (Ascii.eqb x NUL); [reflexivity|]. rewrite IH. reflexivity.
Qed.

Lemma run_main_single (BS : Z) (s : main_state) (c : ascii) (btn : list bool) :
  run_main BS s [c] btn = main_step BS s c btn.
Proof.
  rewrite run_main_cons. destruct (main_step BS s c btn); try reflexivity.
  cbn [run_main prepend]. rewrite app_nil_r. reflexivity.
Qed.

(** [process_line] reads neither the buffer nor the cursor of its state. *)
Lemma process_line_frame (s : main_state) (b : list ascii) (i : Z) (buf : list ascii) (btn : list bool) :
  process_line (mk_main b i (price s) (change s) (alarmStopped s) (local_threshold s)) buf btn =
  process_line s buf btn.
Proof.
  destruct s as [b0 i0 p0 c0 a0 t0]. unfold process_line.
  cbn [price change alarmStopped local_threshold]. reflexivity.
Qed.

Lemma buf_write_bounds (buf : list ascii) (i : Z) (c : ascii) (buf' : list ascii) :
  buf_write buf i c = Some buf' -> 0 <= i < Z.of_nat (List.length buf).
Proof.
  unfold buf_write. destruct ((0 <=? i) && (i <? Z.of_nat (List.length buf))) eqn:H; [|discriminate].
  intros _. apply andb_true_iff in H as [H1 H2]. lia.
Qed.

(** Extra X9: starting from an empty line buffer, the string [sscanf]
    parses when a line ends is exactly the bytes received since, up to the
    first NUL among them: nothing of an earlier line is left over.  A line
    ends on a line feed or carriage return, or when it reaches
    [BUFFER_SIZE - 1] bytes (the byte that arrives then is dropped). *)
Theorem line_is_received_bytes (BS : Z) (s : main_state) (l : list ascii) (c : ascii) (btn : list bool) :
  BS <= 256 -> List.length (uart_buffer s) = Z.to_nat BS -> index s = 0 ->
  forallb (fun x => negb (is_terminator x)) l = true ->
  (is_terminator c = true /\ Z.of_nat (List.length l) <= BS - 1 \/
   Z.of_nat (List.length l) = BS - 1) ->
  exists buf, cstr buf = cstr l /\ run_main BS s (l ++ [c])%list btn = process_line s buf btn.
Proof.
  intros HBS Hlen H0 Hnt Hc.
  assert (Hl : Z.of_nat (List.length l) <= BS - 1) by lia.
  rewrite run_main_app.
  rewrite (feed_chars BS HBS l s btn Hlen) by (auto; lia).
  rewrite prepend_nil, run_main_single. rewrite H0.
  set (B1 := (firstn (Z.to_nat 0) (uart_buffer s) ++ l ++
              skipn (Z.to_nat 0 + List.length l) (uart_buffer s))%list).
  assert (HB1 : List.length B1 = Z.to_nat BS).
  { unfold B1. rewrite !length_app, length_firstn, length_skipn. simpl. lia. }
  destruct (buf_write_in_bounds B1 (0 + Z.of_nat (List.length l)) NUL) as [buf Hw]; [lia|].
  exists buf. split.
  - unfold buf_write in Hw.
    destruct ((0 <=? 0 + Z.of_nat (List.length l)) && (0 + Z.of_nat (List.length l) <? Z.of_nat (List.length B1)));
      [|discriminate].
    injection Hw as <-. rewrite Nat2Z.id.
    match goal with |- cstr (?A ++ NUL :: _)%list = _ =>
      replace A with l; [apply cstr_app_nul|] end.
    unfold B1. change (firstn (Z.to_nat 0) (uart_buffer s)) with (@nil ascii). rewrite app_nil_l.
    rewrite firstn_app, firstn_all, Nat.sub_diag, firstn_O, app_nil_r. reflexivity.
  - rewrite (main_step_terminated BS _ c btn buf).
    + apply process_line_frame.
    + cbn [index]. destruct Hc as [[Hc _] | Hc]; [left; exact Hc | right; lia].
    + exact Hw.
Qed.


Lemma sscanf_empty : sscanf "" feed_format = (EOF, []).
Proof. reflexivity. Qed.

Lemma loading_render_effect (d : lcd) (h : indicators) (tr : list event) :
  row0 (lcd_after d (tr ++ loading_render)%list) = "Loading..." /\
  red_on (ind_after h (tr ++ loading_render)%list) = false /\
  green_on (ind_after h (tr ++ loading_render)%list) = false /\
  buzzer_on (ind_after h (tr ++ loading_render)%list) = false.
Proof.
  rewrite lcd_after_app, ind_after_app.
  generalize (ind_after h tr). intros h'.
  repeat split.
  - unfold red_on, ind_after, loading_render. cbn [fold_left ind_apply gpiod].
    rewrite Z.land_spec, Z.lnot_spec by lia. apply andb_false_r.
  - unfold green_on, ind_after, loading_render. cbn [fold_left ind_apply gpiod].
    rewrite Z.land_spec, Z.lnot_spec by lia. apply andb_false_r.
Qed.

(** Extra X10: a line terminator that comes right after another one (as
    in CR LF line endings, or a blank line) is an empty line: [sscanf]
    fails on it, so whatever the first terminator displayed is replaced by
    "Loading..." with the LED channels and the buzzer off. *)
Theorem empty_line_shows_loading (BS : Z) (s s1 : main_state) (c1 c2 : ascii)
  (btn b1 : list bool) (tr1 : list event) :
  is_terminator c1 = true -> is_terminator c2 = true ->
  main_step BS s c1 btn = Ok s1 tr1 b1 ->
  exists s2, run_main BS s [c1; c2] btn = Ok s2 (tr1 ++ loading_render)%list b1 /\
    index s2 = 0 /\ local_threshold s2 = local_threshold s /\
    forall d h,
      row0 (lcd_after d (tr1 ++ loading_render)%list) = "Loading..." /\
      red_on (ind_after h (tr1 ++ loading_render)%list) = false /\
      green_on (ind_after h (tr1 ++ loading_render)%list) = false /\
      buzzer_on (ind_after h (tr1 ++ loading_render)%list) = false.
Proof.
  intros Hc1 Hc2 Hs.
  destruct (buf_write (uart_buffer s) (index s) NUL) as [buf|] eqn:Hw.
  2:{ unfold main_step in Hs. unfold is_terminator in Hc1. rewrite Hc1, Hw in Hs. discriminate. }
  pose proof Hs as Hs0.
  rewrite (main_step_terminated BS s c1 btn buf (or_introl Hc1) Hw) in Hs.
  pose proof (process_line_shape s buf btn) as Hsh. rewrite Hs in Hsh.
  destruct Hsh as [Hb [Hi Ht]].
  pose proof (buf_write_bounds _ _ _ _ Hw) as Hbd.
  pose proof (buf_write_length _ _ _ _ Hw) as Hbl.
  destruct (buf_write_in_bounds (uart_buffer s1) (index s1) NUL) as [buf2 Hw2];
    [rewrite Hb, Hbl; lia|].
  assert (Hc : cstr buf2 = "").
  { unfold buf_write in Hw2. rewrite Hi in Hw2.
    destruct ((0 <=? 0) && (0 <? Z.of_nat (List.length (uart_buffer s1)))); [|discriminate].
    injection Hw2 as <-. reflexivity. }
  rewrite run_main_cons, Hs0. cbv iota.
  rewrite run_main_single, (main_step_terminated BS s1 c2 b1 buf2 (or_introl Hc2) Hw2).
  unfold process_line. rewrite Hc, sscanf_empty. cbv beta iota zeta.
  replace (EOF =? 2) with false by reflexivity.
  eexists. split; [reflexivity|]. cbn [index local_threshold].
  split; [reflexivity | split; [exact Ht|]].
  intros d h. apply loading_render_effect.
Qed.

Lemma process_line_bad_int (s : main_state) (buf : list ascii) (btn : list bool) (p ch : Q) :
  sscanf (cstr buf) feed_format = (2, [p; ch]) ->
  int_fits (trunc p) = false ->
  process_line s buf btn = Fault BadIntConversion [].
Proof.
  intros Hsc Hint. unfold process_line. rewrite Hsc. simpl Z.eqb. cbv iota beta.
  rewrite Hint. reflexivity.
Qed.

Lemma process_line_ok_parsed (s : main_state) (buf : list ascii) (btn : list bool) (p ch : Q)
  (s' : main_state) (tr : list event) (rest : list bool) :
  sscanf (cstr buf) feed_format = (2, [p; ch]) ->
  process_line s buf btn = Ok s' tr rest ->
  int_fits (trunc p) = true /\ fits_line2 (line2_of p ch) = true.
Proof.
  intros Hsc H.
  destruct (int_fits (trunc p)) eqn:Hi.
  2:{ rewrite (process_line_bad_int s buf btn p ch Hsc Hi) in H. discriminate H. }
  destruct (fits_line2 (line2_of p ch)) eqn:Hf; [split; reflexivity|].
  rewrite (process_line_overflow s buf btn p ch Hsc Hi Hf) in H. discriminate H.
Qed.

Lemma normal_render_effect (h : indicators) (pre : list event) (l2 : string) (ch : Q) :
  buzzer_on (ind_after h (pre ++ normal_render l2 ch)%list) = false /\
  (red_on (ind_after h (pre ++ normal_render l2 ch)%list) = true <-> (ch < 0)%Q) /\
  (green_on (ind_after h (pre ++ normal_render l2 ch)%list) = true <-> (0 < ch)%Q).
Proof.
  rewrite ind_after_app. generalize (ind_after h pre). intros h'.
  unfold red_on, green_on, normal_render, ind_after. cbn [fold_left ind_apply gpiod buzzer_on].
  split; [reflexivity|].
  destruct (Qle_bool ch 0) eqn:Hle; [destruct (Qeq_bool ch 0) eqn:Heq|].
  - apply Qeq_bool_iff in Heq.
    rewrite !Z.land_spec, !Z.lnot_spec by lia. rewrite !andb_false_r.
    split; split; intros H; try discriminate H.
    + rewrite Heq in H. apply Qlt_irrefl in H. contradiction.
    + rewrite Heq in H. apply Qlt_irrefl in H. contradiction.
  - apply Qle_bool_iff in Hle. apply Qeq_bool_neq in Heq.
    rewrite !Z.lor_spec, !Z.land_spec, !Z.lnot_spec by lia. rewrite !andb_false_r. simpl.
    split; split; intros H; try discriminate H;
      first [reflexivity | exfalso; apply (Qlt_not_le 0 ch H Hle)
            | apply Qle_lt_or_eq in Hle as [Hlt | Hq]; [exact Hlt | contradiction]].
  - assert (Hlt : (0 < ch)%Q).
    { apply Qnot_le_lt. intros Hc. apply Qle_bool_iff in Hc. rewrite Hc in Hle. discriminate. }
    rewrite !Z.lor_spec, !Z.land_spec, !Z.lnot_spec by lia. rewrite !andb_false_r. simpl.
    split; split; intros H; try discriminate H;
      first [reflexivity | exact Hlt | exfalso; apply (Qlt_not_le 0 ch Hlt); apply Qlt_le_weak; exact H].
Qed.

(** Extra X11: after every terminated line that parses and is handled to
    the end (an [Ok] step, with or without an alarm before), the program
    stores both values and leaves the buzzer off, the red channel on
    exactly when the change is negative and the green one exactly when it
    is positive. *)
Theorem update_shows_change_sign (BS : Z) (s : main_state) (c : ascii) (btn : list bool)
  (buf : list ascii) (p ch : Q) (s' : main_state) (tr : list event) (rest : list bool) :
  is_terminator c = true \/ BS - 1 <= index s ->
  buf_write (uart_buffer s) (index s) NUL = Some buf ->
  sscanf (cstr buf) feed_format = (2, [p; ch]) ->
  main_step BS s c btn = Ok s' tr rest ->
  price s' = p /\ change s' = ch /\
  forall h,
    buzzer_on (ind_after h tr) = false /\
    (red_on (ind_after h tr) = true <-> (ch < 0)%Q) /\
    (green_on (ind_after h tr) = true <-> (0 < ch)%Q).
Proof.
  intros Hc Hw Hs H.
  rewrite (main_step_terminated BS s c btn buf Hc Hw) in H.
  destruct (process_line_ok_parsed s buf btn p ch s' tr rest Hs H) as [Hi Hf].
  rewrite (process_line_parsed BS s buf btn p ch Hs Hi Hf) in H.
  destruct (Qle_bool (local_threshold s) p).
  - injection H as <- <- <-. split; [reflexivity | split; [reflexivity|]].
    intros h. exact (normal_render_effect h [] (line2_of p ch) ch).
  - destruct (alarm_loop _ _ _ _ btn) as [tr0 r0|]; [|discriminate H].
    injection H as <- <- <-. split; [reflexivity | split; [reflexivity|]].
    intros h. replace (tr0 ++ Buzzer_Off :: normal_render (line2_of p ch) ch)%list
      with ((tr0 ++ [Buzzer_Off]) ++ normal_render (line2_of p ch) ch)%list
      by (rewrite <- app_assoc; reflexivity).
    apply normal_render_effect.
Qed.

(** Lines 84-93: the prompt and the first menu value, before the loop. *)
Definition sel_prologue : list event :=
  [LCD_Clear; LCD_Set_Cursor 0 0; LCD_Display_String "Set min val:";
   LCD_Set_Cursor 0 1;
   LCD_Display_String ("$" ++ fmt_left_d 7 (threshold_at (adjustable_index sel_init)))].

(** Lines 116-120: the confirmation, then a blank display. *)
Definition sel_epilogue : list event :=
  [LCD_Clear; LCD_Set_Cursor 0 0; LCD_Display_String "Threshold Saved"; DelayMs 3000; LCD_Clear].

(** The whole of [main]: the initialisation calls of lines 77-81 (which only
    configure the peripherals) are not recorded; the selection loop runs on
    the button stream, and when the stream runs out before the window
    closes the program is still polling the button ([Blocked]); otherwise
    the threshold is locked and the main loop runs on the received
    characters with the remaining button polls. *)
Definition tracker_main (BS : Z) (buf : list ascii) (btn : list bool) (cs : list ascii) : result :=
  let '(s, tr, rest) := sel_loop sel_init btn in
  if elapsed s <? 4000 then Blocked (sel_prologue ++ tr)%list
  else prepend (sel_prologue ++ tr ++ sel_epilogue)%list (run_main BS (main_init buf btn) cs rest).

Lemma sel_loop_step (s : sel_state) (b : bool) (r : list bool) :
  elapsed s < 4000 ->
  sel_loop s (b :: r) =
  (fst (fst (sel_loop (fst (sel_body s b)) r)),
   (snd (sel_body s b) ++ snd (fst (sel_loop (fst (sel_body s b)) r)))%list,
   snd (sel_loop (fst (sel_body s b)) r)).
Proof.
  intros H. cbn [sel_loop]. replace (elapsed s <? 4000) with true by lia.
  destruct (sel_body s b) as [s1 tr1]. simpl.
  destruct (sel_loop s1 r) as [[s2 tr2] r2]. reflexivity.
Qed.

Lemma sel_body_fst (s : sel_state) (b : bool) :
  fst (sel_body s b) =
  if b then mk_sel ((adjustable_index s + 1) mod total_thresholds) 100
  else mk_sel (adjustable_index s) (elapsed s + 100).
Proof. destruct b; reflexivity. Qed.

Lemma total_thresholds_12 : total_thresholds = 12.
Proof. reflexivity. Qed.

(** The loop keeps the index within the menu and the elapsed time on the
    100 ms grid up to 4000; it stops before 4000 only when the button
    stream runs out. *)
Lemma sel_loop_inv (btn : list bool) :
  forall s j, 0 <= adjustable_index s < total_thresholds -> 0 <= j <= 40 -> elapsed s = 100 * j ->
  0 <= adjustable_index (fst (fst (sel_loop s btn))) < total_thresholds /\
  (exists j', 0 <= j' <= 40 /\ elapsed (fst (fst (sel_loop s btn))) = 100 * j') /\
  (elapsed (fst (fst (sel_loop s btn))) < 4000 -> snd (sel_loop s btn) = []).
Proof.
  induction btn as [|b r IH]; intros s j Hi Hj He.
  - assert (E : sel_loop s [] = (s, [], [])) by (simpl; destruct (elapsed s <? 4000); reflexivity).
    rewrite E. simpl. split; [exact Hi|]. split; [exists j; split; assumption | reflexivity].
  - destruct (Z.lt_ge_cases (elapsed s) 4000) as [Hlt | Hge].
    + rewrite sel_loop_step by exact Hlt. cbn [fst snd].
      rewrite sel_body_fst. rewrite total_thresholds_12 in *.
      destruct b.
      * apply (IH _ 1); cbn [adjustable_index elapsed]; rewrite ?total_thresholds_12;
          [pose proof (Z.mod_pos_bound (adjustable_index s + 1) 12); lia | lia | lia].
      * apply (IH _ (j + 1)); cbn [adjustable_index elapsed]; rewrite ?total_thresholds_12; lia.
    + rewrite sel_loop_done by exact Hge. simpl. split; [exact Hi|].
      split; [exists j; split; assumption | lia].
Qed.

(** Extra X1: whatever the button does, the selection loop keeps the menu
    index within the 12 entries (so [thresholds[adjustable_index]] is
    always in bounds) and the elapsed time a multiple of 100 ms between 0
    and 4000; it stops short of 4000 only when no more button polls come. *)
Theorem selection_invariant (btn : list bool) :
  0 <= adjustable_index (sel_final btn) < 12 /\
  (exists j, 0 <= j <= 40 /\ elapsed (sel_final btn) = 100 * j) /\
  (elapsed (sel_final btn) < 4000 -> sel_rest btn = []).
Proof.
  rewrite <- total_thresholds_12.
  exact (sel_loop_inv btn sel_init 0 ltac:(simpl; rewrite total_thresholds_12; lia) ltac:(lia) eq_refl).
Qed.

Lemma sel_loop_quiet_tail (btn : list bool) :
  forall s j, 0 <= j <= 40 -> elapsed s = 100 * j ->
  elapsed (fst (fst (sel_loop s btn))) = 4000 ->
  exists q k, btn = (q ++ repeat false k ++ snd (sel_loop s btn))%list /\
    ((q = [] /\ (j + Z.of_nat k = 40)) \/ (exists q', q = (q' ++ [true])%list /\ k = 39%nat)).
Proof.
  induction btn as [|b r IH]; intros s j Hj He Hf.
  - assert (E : sel_loop s [] = (s, [], [])) by (simpl; destruct (elapsed s <? 4000); reflexivity).
    rewrite E in *. simpl in Hf. exists [], O. simpl. split; [reflexivity|]. left. split; [reflexivity | lia].
  - destruct (Z.lt_ge_cases (elapsed s) 4000) as [Hlt | Hge].
    + rewrite sel_loop_step in * by exact Hlt. cbn [fst snd] in *.
      rewrite sel_body_fst in *. destruct b.
      * destruct (IH (mk_sel ((adjustable_index s + 1) mod total_thresholds) 100) 1
                  ltac:(lia) eq_refl Hf) as [q [k [E Hq]]].
        exists (true :: q), k. split; [simpl; f_equal; exact E|].
        right. destruct Hq as [[-> Hk] | [q' [-> Hk]]].
        -- exists []. split; [reflexivity | lia].
        -- exists (true :: q'). split; [reflexivity | exact Hk].
      * destruct (IH (mk_sel (adjustable_index s) (elapsed s + 100)) (j + 1)
                  ltac:(lia) ltac:(cbn [elapsed]; lia) Hf) as [q [k [E Hq]]].
        destruct Hq as [[-> Hk] | [q' [-> Hk]]].
        -- exists [], (S k). split; [simpl; f_equal; exact E|]. left. split; [reflexivity | lia].
        -- exists (false :: q' ++ [true])%list, k. split; [simpl; f_equal; exact E|].
           right. exists (false :: q'). split; [reflexivity | exact Hk].
    + rewrite sel_loop_done in * by exact Hge. exists [], O. simpl. split; [reflexivity|].
      left. split; [reflexivity|]. simpl in Hf. lia.
Qed.

(** Extra X2: the threshold is locked only after a run of unpressed polls:
    the polls the selection consumes are either 40 unpressed ones (no press
    at all) or end with a press followed by exactly 39 unpressed ones (the
    iteration that sees the press already counts 100 ms). *)
Theorem lock_after_quiet_polls (btn : list bool) :
  elapsed (sel_final btn) = 4000 ->
  exists q k, btn = (q ++ repeat false k ++ sel_rest btn)%list /\
    ((q = [] /\ k = 40%nat) \/ (exists q', q = (q' ++ [true])%list /\ k = 39%nat)).
Proof.
  intros H. destruct (sel_loop_quiet_tail btn sel_init 0 ltac:(lia) eq_refl H) as [q [k [E Hq]]].
  exists q, k. split; [exact E|]. destruct Hq as [[Hq Hk] | Hq]; [left; split; [exact Hq | lia] | right; exact Hq].
Qed.

(** A press at the second poll, then 39 unpressed polls. *)
Definition late_press : list bool := (false :: true :: repeat false 39)%list.

Lemma lock_after_quiet_polls_witness :
  elapsed (sel_final late_press) = 4000 /\
  exists q k, late_press = (q ++ repeat false k ++ sel_rest late_press)%list /\
    ((q = [] /\ k = 40%nat) \/ (exists q', q = (q' ++ [true])%list /\ k = 39%nat)).
Proof.
  assert (H : elapsed (sel_final late_press) = 4000) by (vm_compute; reflexivity).
  split; [exact H | exact (lock_after_quiet_polls _ H)].
Defined.

Lemma menu_index_cases (i : Z) :
  0 <= i < 12 ->
  i = 0 \/ i = 1 \/ i = 2 \/ i = 3 \/ i = 4 \/ i = 5 \/ i = 6 \/ i = 7 \/ i = 8 \/ i = 9 \/
  i = 10 \/ i = 11.
Proof. lia. Qed.

(** Every menu value is drawn as eight characters, so redrawing one over
    another leaves exactly the new one on the row. *)
Lemma menu_redraw (i j : Z) :
  0 <= i < 12 -> 0 <= j < 12 ->
  overwrite ("$" ++ fmt_left_d 7 (threshold_at i)) 0 ("$" ++ fmt_left_d 7 (threshold_at j)) =
  "$" ++ fmt_left_d 7 (threshold_at j).
Proof.
  intros Hi Hj.
  destruct (menu_index_cases i Hi) as [-> | [-> | [-> | [-> | [-> | [-> | [-> | [-> | [-> | [-> | [-> | ->]]]]]]]]]]];
  destruct (menu_index_cases j Hj) as [-> | [-> | [-> | [-> | [-> | [-> | [-> | [-> | [-> | [-> | [-> | ->]]]]]]]]]]];
  vm_compute; reflexivity.
Qed.

Lemma menu_str_length (i : Z) :
  0 <= i < 12 -> String.length ("$" ++ fmt_left_d 7 (threshold_at i)) = 8%nat.
Proof.
  intros Hi.
  destruct (menu_index_cases i Hi) as [-> | [-> | [-> | [-> | [-> | [-> | [-> | [-> | [-> | [-> | [-> | ->]]]]]]]]]]];
  reflexivity.
Qed.

Lemma sel_loop_display (btn : list bool) :
  forall s d, 0 <= adjustable_index s < 12 -> cur_row d <> 0 ->
  row1 d = "$" ++ fmt_left_d 7 (threshold_at (adjustable_index s)) ->
  let d' := lcd_after d (snd (fst (sel_loop s btn))) in
  row0 d' = row0 d /\ cur_row d' <> 0 /\
  row1 d' = "$" ++ fmt_left_d 7 (threshold_at (adjustable_index (fst (fst (sel_loop s btn))))).
Proof.
  induction btn as [|b r IH]; intros s d Hi Hr H1; cbv zeta.
  - assert (E : sel_loop s [] = (s, [], [])) by (simpl; destruct (elapsed s <? 4000); reflexivity).
    rewrite E. simpl. auto.
  - destruct (Z.lt_ge_cases (elapsed s) 4000) as [Hlt | Hge].
    + rewrite sel_loop_step by exact Hlt. cbn [fst snd].
      rewrite lcd_after_app.
      destruct b.
      * set (i' := (adjustable_index s + 1) mod total_thresholds).
        assert (Hi' : 0 <= i' < 12)
          by (unfold i'; rewrite total_thresholds_12; apply Z.mod_pos_bound; lia).
        change (snd (sel_body s true)) with
          [LCD_Set_Cursor 0 1; LCD_Display_String ("$" ++ fmt_left_d 7 (threshold_at i'));
           DelayMs 300; DelayMs 100].
        change (fst (sel_body s true)) with (mk_sel i' (0 + 100)).
        set (tr1 := [LCD_Set_Cursor 0 1; LCD_Display_String ("$" ++ fmt_left_d 7 (threshold_at i'));
                     DelayMs 300; DelayMs 100]).
        assert (Hr' : cur_row (lcd_after d tr1) <> 0) by (unfold lcd_after, tr1; simpl; lia).
        assert (H0' : row0 (lcd_after d tr1) = row0 d).
        { unfold lcd_after, tr1. cbn [fold_left lcd_apply row0 cur_row].
          replace (1 =? 0) with false by reflexivity. reflexivity. }
        assert (H1' : row1 (lcd_after d tr1) =
                      "$" ++ fmt_left_d 7 (threshold_at (adjustable_index (mk_sel i' (0 + 100))))).
        { unfold lcd_after, tr1. cbn [fold_left lcd_apply row1 cur_row adjustable_index].
          replace (1 =? 0) with false by reflexivity. cbn [row1].
          rewrite H1. apply menu_redraw; [exact Hi | exact Hi']. }
        destruct (IH (mk_sel i' (0 + 100)) (lcd_after d tr1) Hi' Hr' H1') as [A [B C]].
        split; [rewrite A; exact H0' | split; [exact B | exact C]].
      * change (snd (sel_body s false)) with [DelayMs 100].
        change (fst (sel_body s false)) with (mk_sel (adjustable_index s) (elapsed s + 100)).
        edestruct (IH (mk_sel (adjustable_index s) (elapsed s + 100)) (lcd_after d [DelayMs 100]))
          as [A [B C]]; [exact Hi | exact Hr | exact H1 |].
        split; [exact A | split; [exact B | exact C]].
    + rewrite sel_loop_done by exact Hge. simpl. auto.
Qed.

(** Extra X3: during and at the end of the selection, the display shows the
    prompt "Set min val:" on row 1 and, on row 2, the eight-character
    string ["$<value>"] of exactly the menu value that gets locked. *)
Theorem selection_display (btn : list bool) (d : lcd) :
  let s := sel_final btn in
  let d' := lcd_after d (sel_prologue ++ snd (fst (sel_loop sel_init btn)))%list in
  row0 d' = "Set min val:" /\
  exists v, In v thresholds /\ lock_threshold s = inject_Z v /\
    row1 d' = "$" ++ fmt_left_d 7 v /\ String.length (row1 d') = 8%nat.
Proof.
  cbv zeta. rewrite lcd_after_app.
  assert (Hi : 0 <= adjustable_index (sel_final btn) < 12).
  { rewrite <- total_thresholds_12.
    exact (proj1 (sel_loop_inv btn sel_init 0 ltac:(simpl; rewrite total_thresholds_12; lia) ltac:(lia) eq_refl)). }
  destruct (sel_loop_display btn sel_init (lcd_after d sel_prologue)) as [A [_ C]];
    [simpl; lia | unfold lcd_after; simpl; lia | reflexivity |].
  rewrite A, C. split; [reflexivity|].
  exists (threshold_at (adjustable_index (sel_final btn))). split; [|split; [reflexivity | split]].
  - unfold threshold_at. apply nth_In. simpl. lia.
  - reflexivity.
  - apply menu_str_length. exact Hi.
Qed.

(** Calls that touch neither the LED nor the buzzer. *)
Definition display_or_delay (e : event) : bool :=
  match e with
  | LCD_Clear | LCD_Set_Cursor _ _ | LCD_Display_String _ | DelayMs _ => true
  | _ => false
  end.

Lemma ind_after_display (h : indicators) (tr : list event) :
  forallb display_or_delay tr = true -> ind_after h tr = h.
Proof.
  revert h. induction tr as [|e tr IH]; intros h H; [reflexivity|].
  simpl in H. apply andb_prop in H as [He H].
  unfold ind_after. cbn [fold_left]. fold (ind_after (ind_apply h e) tr).
  rewrite IH by exact H. destruct e; try discriminate He; reflexivity.
Qed.

Lemma sel_loop_display_only (btn : list bool) :
  forall s, forallb display_or_delay (snd (fst (sel_loop s btn))) = true.
Proof.
  induction btn as [|b r IH]; intros s.
  - simpl. destruct (elapsed s <? 4000); reflexivity.
  - destruct (Z.lt_ge_cases (elapsed s) 4000) as [Hlt | Hge].
    + rewrite sel_loop_step by exact Hlt. cbn [fst snd].
      rewrite forallb_app, IH. destruct b; reflexivity.
    + rewrite sel_loop_done by exact Hge. reflexivity.
Qed.

(** Extra X4: the whole of [main].  Either the selection window closes
    (at exactly 4000 ms): then the boot phase has shown "Threshold Saved",
    ends with a blank display, has not touched the LED or the buzzer, and
    the main loop then runs from the locked threshold on the button polls
    left; or the button stream runs out first: the program is still in the
    selection, has read no UART character and not touched the LED or the
    buzzer. *)
Theorem main_boot_sequence (BS : Z) (buf : list ascii) (btn : list bool) :
  (elapsed (sel_final btn) = 4000 /\
   exists tr, (forall cs, tracker_main BS buf btn cs =
                 prepend tr (run_main BS (main_init buf btn) cs (sel_rest btn))) /\
     In (LCD_Display_String "Threshold Saved") tr /\
     (forall d, lcd_after d tr = lcd_blank) /\ (forall h, ind_after h tr = h)) \/
  (elapsed (sel_final btn) < 4000 /\ sel_rest btn = [] /\
   exists tr, (forall cs, tracker_main BS buf btn cs = Blocked tr) /\ (forall h, ind_after h tr = h)).
Proof.
  destruct (sel_loop_inv btn sel_init 0 ltac:(simpl; rewrite total_thresholds_12; lia) ltac:(lia) eq_refl)
    as [_ [[j [Hj He]] Hrest]].
  pose proof (sel_loop_display_only btn sel_init) as Hq.
  unfold tracker_main, sel_final, sel_rest in *.
  destruct (sel_loop sel_init btn) as [[s tr] rest]. cbn [fst snd] in *.
  destruct (Z.lt_ge_cases (elapsed s) 4000) as [Hlt | Hge].
  - right. split; [exact Hlt | split; [exact (Hrest Hlt)|]].
    exists (sel_prologue ++ tr)%list. split.
    + intros cs. replace (elapsed s <? 4000) with true by lia. reflexivity.
    + intros h. apply ind_after_display. rewrite forallb_app, Hq. reflexivity.
  - left. split; [lia|].
    exists (sel_prologue ++ tr ++ sel_epilogue)%list. split; [|split; [|split]].
    + intros cs. replace (elapsed s <? 4000) with false by lia. reflexivity.
    + apply in_or_app. right. apply in_or_app. right. simpl. auto.
    + intros d. rewrite app_assoc, lcd_after_app. reflexivity.
    + intros h. apply ind_after_display. rewrite !forallb_app, Hq. reflexivity.
Qed.

(** Concrete runs: a 64-byte buffer holding the line [l] up to the cursor. *)
Definition rx_state (l : string) (thr : Q) : main_state :=
  mk_main (string_to_list l ++ repeat NUL (64 - String.length l))%list
          (Z.of_nat (String.length l)) 0 0 false thr.

Definition rx_buf (l : string) : list ascii :=
  match buf_write (uart_buffer (rx_state l 0)) (index (rx_state l 0)) NUL with
  | Some b => b
  | None => []
  end.

Definition rx_val (l : string) (k : nat) : Q := nth k (snd (sscanf (cstr (rx_buf l)) feed_format)) 0%Q.

Definition rx_next (l : string) (thr : Q) (c : ascii) (btn : list bool) : main_state * list event * list bool :=
  match main_step 64 (rx_state l thr) c btn with
  | Ok s tr b => (s, tr, b)
  | _ => (rx_state l thr, [], [])
  end.

Definition rich_line : string := "BTC Price: $63250.50, 24h Change: -1.25%".


Lemma line2_fits_in_range_witness :
  fits_line2 (line2_of (rx_val rich_line 0) (rx_val rich_line 1)) = true /\
  match main_step 64 (rx_state rich_line (70000 # 1)) LF [] with Fault _ _ => False | _ => True end.
Proof.
  apply (line2_fits_in_range 64 (rx_state rich_line (70000 # 1)) LF [] (rx_buf rich_line)
           (rx_val rich_line 0) (rx_val rich_line 1)).
  - left. reflexivity.
  - vm_compute. reflexivity.
  - vm_compute. reflexivity.
  - vm_compute. split; first [reflexivity | discriminate].
  - vm_compute. split; first [reflexivity | discriminate].
Defined.


Lemma line_is_received_bytes_witness :
  exists buf, cstr buf = cstr (string_to_list rich_line) /\
    run_main 64 (mk_main (repeat NUL 64) 0 0 0 false (10000 # 1)) (string_to_list rich_line ++ [LF])%list [] =
    process_line (mk_main (repeat NUL 64) 0 0 0 false (10000 # 1)) buf [].
Proof.
  apply (line_is_received_bytes 64 (mk_main (repeat NUL 64) 0 0 0 false (10000 # 1))
           (string_to_list rich_line) LF []).
  - lia.
  - reflexivity.
  - reflexivity.
  - reflexivity.
  - left. split; [reflexivity | vm_compute; discriminate].
Defined.

Lemma empty_line_shows_loading_witness :
  exists s2, run_main 64 (rx_state rich_line (10000 # 1)) [CR; LF] [] =
    Ok s2 (snd (fst (rx_next rich_line (10000 # 1) CR [])) ++ loading_render)%list
       (snd (rx_next rich_line (10000 # 1) CR [])) /\
    index s2 = 0 /\ local_threshold s2 = local_threshold (rx_state rich_line (10000 # 1)) /\
    forall d h,
      row0 (lcd_after d (snd (fst (rx_next rich_line (10000 # 1) CR [])) ++ loading_render)%list) = "Loading..." /\
      red_on (ind_after h (snd (fst (rx_next rich_line (10000 # 1) CR [])) ++ loading_render)%list) = false /\
      green_on (ind_after h (snd (fst (rx_next rich_line (10000 # 1) CR [])) ++ loading_render)%list) = false /\
      buzzer_on (ind_after h (snd (fst (rx_next rich_line (10000 # 1) CR [])) ++ loading_render)%list) = false.
Proof.
  apply (empty_line_shows_loading 64 (rx_state rich_line (10000 # 1))
           (fst (fst (rx_next rich_line (10000 # 1) CR []))) CR LF [] (snd (rx_next rich_line (10000 # 1) CR []))
           (snd (fst (rx_next rich_line (10000 # 1) CR [])))).
  - reflexivity.
  - reflexivity.
  - vm_compute. reflexivity.
Defined.

Lemma update_shows_change_sign_witness :
  price (fst (fst (rx_next rich_line (10000 # 1) LF []))) = rx_val rich_line 0 /\
  change (fst (fst (rx_next rich_line (10000 # 1) LF []))) = rx_val rich_line 1 /\
  forall h,
    buzzer_on (ind_after h (snd (fst (rx_next rich_line (10000 # 1) LF [])))) = false /\
    (red_on (ind_after h (snd (fst (rx_next rich_line (10000 # 1) LF [])))) = true <->
     (rx_val rich_line 1 < 0)%Q) /\
    (green_on (ind_after h (snd (fst (rx_next rich_line (10000 # 1) LF [])))) = true <->
     (0 < rx_val rich_line 1)%Q).
Proof.
  apply (update_shows_change_sign 64 (rx_state rich_line (10000 # 1)) LF [] (rx_buf rich_line)
           (rx_val rich_line 0) (rx_val rich_line 1)
           (fst (fst (rx_next rich_line (10000 # 1) LF []))) (snd (fst (rx_next rich_line (10000 # 1) LF [])))
           (snd (rx_next rich_line (10000 # 1) LF []))).
  - left. reflexivity.
  - vm_compute. reflexivity.
  - vm_compute. reflexivity.
  - vm_compute. reflexivity.
Defined.
